(** * mht2pdf: the metadata pipeline of [scripts/convert_mht_to_pdf.py]

    A shallow embedding of the conversion script and the properties of its
    field resolution, MIME unpacking, date handling, PDF metadata mapping
    and batch driver.

    Conventions.
    - A Python [str] is a list of Unicode code points ([list N]); [bytes]
      is a list of octets, also [list N].  [str_of] turns an ASCII literal
      into a [str].
    - [Optional[str]] is [option (list N)].
    - A Python [dict] is a [gmap].
    - An operation that may raise returns [res], whose [Raise] constructor
      carries the exception class.
    - Third-party components (the MIME parser, BeautifulSoup, the JSON
      loader, codecs, dateutil, the browser, pypdf) are not part of the
      script; their results are inputs of the model. *)

From Stdlib Require Import ZArith NArith Lia String Ascii.
From stdpp Require Import base option list strings gmap sorting.

Set Warnings "-register-all".
#[local] Close Scope string_scope.
#[local] Open Scope list_scope.
#[local] Open Scope N_scope.

Fixpoint str_of (s : string) : list N :=
  match s with
  | EmptyString => []
  | String a s' => N_of_ascii a :: str_of s'
  end.
Arguments str_of s%_string.

(** Results of operations that may raise. *)
Inductive exn :=
  | ValueError | LookupError | OverflowError | OSError | RuntimeError.

Inductive res (A : Type) :=
  | Ok (a : A)
  | Raise (e : exn).
Arguments Ok {A} a.
Arguments Raise {A} e.

Definition bind_res {A B} (r : res A) (k : A -> res B) : res B :=
  match r with
  | Ok a => k a
  | Raise e => Raise e
  end.

Notation "x <-! r ; k" := (bind_res r (fun x => k))
  (at level 100, r at next level, right associativity).

Definition is_ok {A} (r : res A) : bool :=
  match r with Ok _ => true | Raise _ => false end.

(** ** Text: whitespace normalisation and ordered fallback *)

Module Text.

(** [Py_UNICODE_ISSPACE]: the class behind both [\s] in a [str] pattern
    and [str.strip()]. *)
Definition isspace (c : N) : bool :=
  ((9 <=? c) && (c <=? 13)) || ((28 <=? c) && (c <=? 32))
  || (c =? 0x85) || (c =? 0xA0) || (c =? 0x1680)
  || ((0x2000 <=? c) && (c <=? 0x200A))
  || (c =? 0x2028) || (c =? 0x2029) || (c =? 0x202F)
  || (c =? 0x205F) || (c =? 0x3000).

Definition SPACE : N := 32.

(** [re.sub(r"\s+", " ", value)]: every maximal run of whitespace becomes
    one space.  [in_run] tells that the previous character was whitespace
    of the run being replaced. *)
Fixpoint sub_ws (in_run : bool) (s : list N) : list N :=
  match s with
  | [] => []
  | c :: s' =>
      if isspace c
      then (if in_run then sub_ws true s' else SPACE :: sub_ws true s')
      else c :: sub_ws false s'
  end.

Fixpoint lstrip (s : list N) : list N :=
  match s with
  | [] => []
  | c :: s' => if isspace c then lstrip s' else s
  end.

Fixpoint rstrip (s : list N) : list N :=
  match s with
  | [] => []
  | c :: s' =>
      match rstrip s' with
      | [] => if isspace c then [] else [c]
      | r => c :: r
      end
  end.

Definition strip (s : list N) : list N := rstrip (lstrip s).

(** [clean_text]: [None] for a falsy argument, else the normalised text,
    or [None] when nothing is left. *)
Definition clean_text (value : option (list N)) : option (list N) :=
  match value with
  | None | Some [] => None
  | Some v =>
      match strip (sub_ws false v) with
      | [] => None
      | cleaned => Some cleaned
      end
  end.

(** The values [first_nonempty] may receive: it tests [isinstance(v, str)]
    and then the truth value of [v]. *)
Inductive value :=
  | VNone
  | VStr (s : list N)
  | VBool (b : bool)
  | VInt (z : Z).

Definition truthy (v : value) : bool :=
  match v with
  | VNone => false
  | VStr s => match s with [] => false | _ => true end
  | VBool b => b
  | VInt z => negb (z =? 0)%Z
  end.

Definition of_opt (o : option (list N)) : value :=
  match o with Some s => VStr s | None => VNone end.

Definition to_opt (v : value) : option (list N) :=
  match v with VStr s => Some s | _ => None end.

Fixpoint first_nonempty (values : list value) : value :=
  match values with
  | [] => VNone
  | v :: rest =>
      let v := match v with
               | VStr s => of_opt (clean_text (Some s))
               | _ => v
               end in
      if truthy v then v else first_nonempty rest
  end.

(** The call sites pass [Optional[str]] candidates and store the result in
    an [Optional[str]] field. *)
Definition first_nonempty_str (cands : list (option (list N))) : option (list N) :=
  to_opt (first_nonempty (of_opt <$> cands)).

(** *** Normal forms *)

(** Every whitespace character is a single space followed by a
    non-whitespace character or by the end. *)
Fixpoint single_spaced (s : list N) : bool :=
  match s with
  | [] => true
  | c :: s' =>
      (if isspace c
       then (c =? SPACE) && match s' with [] => true | d :: _ => negb (isspace d) end
       else true)
      && single_spaced s'
  end.

Definition starts_clean (s : list N) : bool :=
  match s with [] => true | c :: _ => negb (isspace c) end.

Definition ends_clean (s : list N) : bool :=
  match last s with None => true | Some c => negb (isspace c) end.

(** No leading or trailing whitespace and no two consecutive whitespace
    characters; a string in this form that is not empty is not
    whitespace-only. *)
Definition normalized (s : list N) : Prop :=
  s ≠ [] ∧
  (∀ c, head s = Some c → isspace c = false) ∧
  (∀ c, last s = Some c → isspace c = false) ∧
  (∀ i c d, s !! i = Some c → s !! (S i) = Some d →
            ¬ (isspace c = true ∧ isspace d = true)) ∧
  (∃ c, c ∈ s ∧ isspace c = false).

End Text.

(** ** Html: the parsed document and its JSON-LD blocks *)

Module Html.

(** [str.lower()] and the case folding of [re.I], on the characters that
    matter here: the patterns are ASCII literals.  Under [re.I] an ASCII
    letter is also matched by U+0130 and U+0131 (for i), U+017F (for s)
    and U+212A (for k). *)
Definition lower_ascii (c : N) : N :=
  if (65 <=? c) && (c <=? 90) then c + 32 else c.

Definition fold_char (c : N) : N :=
  if (c =? 0x130) || (c =? 0x131) then 105
  else if c =? 0x17F then 115
  else if c =? 0x212A then 107
  else lower_ascii c.

Definition lower (s : list N) : list N := lower_ascii <$> s.
Definition fold (s : list N) : list N := fold_char <$> s.

Fixpoint starts_with (pat s : list N) : bool :=
  match pat, s with
  | [], _ => true
  | p :: pat', c :: s' => (p =? c) && starts_with pat' s'
  | _ :: _, [] => false
  end.

Fixpoint contains (pat s : list N) : bool :=
  starts_with pat s ||
  match s with
  | [] => false
  | _ :: s' => contains pat s'
  end.

(** [re.compile(pat, re.I).search(s)] for a literal [pat]. *)
Definition re_search_ci (pat s : list N) : bool :=
  contains (fold pat) (fold s).

(** [re.compile("^" + re.escape(value) + "$", re.I).search(s)]: the whole
    string, where [$] also matches before one final newline. *)
Definition re_whole_ci (value s : list N) : bool :=
  bool_decide (fold s = fold value) || bool_decide (fold s = fold value ++ [10]).

(** A tag of the parsed tree: its name, its attribute dict, [.string] and
    [.get_text("", strip=True)].  A multi-valued attribute ([rel]) is
    kept as its source text. *)
Record tag := {
  tag_name : list N;
  tag_attrs : gmap (list N) (list N);
  tag_string : option (list N);
  tag_text : list N;
}.

(** The tags of the document, in document order. *)
Definition soup := list tag.

Definition find (name : list N) (ok : tag -> bool) (doc : soup) : option tag :=
  List.find (fun t => bool_decide (tag_name t = name) && ok t) doc.

Definition find_all (name : list N) (ok : tag -> bool) (doc : soup) : list tag :=
  List.filter (fun t => bool_decide (tag_name t = name) && ok t) doc.

Definition attr_matches (attr : list N) (re : list N -> bool) (t : tag) : bool :=
  match tag_attrs t !! attr with
  | Some v => re v
  | None => false
  end.

Definition tag_get (t : tag) (attr : list N) : option (list N) :=
  tag_attrs t !! attr.

(** [meta_content(attr, value)], the closure of [extract_from_mht]. *)
Definition meta_content (doc : soup) (attr value : list N) : option (list N) :=
  match find (str_of "meta") (attr_matches attr (re_whole_ci value)) doc with
  | Some t => tag_get t (str_of "content")
  | None => None
  end.

(** JSON values as [json.loads] returns them. *)
Inductive json :=
  | JNull
  | JBool (b : bool)
  | JNum (z : Z)
  | JStr (s : list N)
  | JArr (items : list json)
  | JObj (members : list (list N * json)).

(** [d.get(k)] on a loaded object: of members with the same key the last
    one is the dict's. *)
Definition obj_get (k : list N) (members : list (list N * json)) : option json :=
  foldl (fun acc kv => if bool_decide (kv.1 = k) then Some kv.2 else acc)
        None members.

Definition get_str (k : list N) (members : list (list N * json)) : option (list N) :=
  match obj_get k members with
  | Some (JStr s) => Some s
  | _ => None
  end.

(** [not out.get(k)] *)
Definition unset (out : gmap (list N) (list N)) (k : list N) : bool :=
  match out !! k with
  | None | Some [] => true
  | Some _ => false
  end.

(** [dict.fromkeys(names)]: the names without repetition, in order of
    first occurrence. *)
Definition fromkeys (names : list (list N)) : list (list N) :=
  foldl (fun acc x => if bool_decide (x ∈ acc) then acc else acc ++ [x]) [] names.

Fixpoint join (sep : list N) (parts : list (list N)) : list N :=
  match parts with
  | [] => []
  | [p] => p
  | p :: rest => p ++ sep ++ join sep rest
  end.

Definition author_names (items : list json) : list (list N) :=
  omap (fun a => match a with
                 | JObj ms => get_str (str_of "name") ms
                 | JStr s => Some s
                 | _ => None
                 end) items.

Definition set_if_unset (k : list N) (v : option (list N))
    (out : gmap (list N) (list N)) : gmap (list N) (list N) :=
  if unset out k
  then match v with Some s => <[k := s]> out | None => out end
  else out.

Definition publisher_of (ms : list (list N * json)) : option (list N) :=
  match obj_get (str_of "publisher") ms with
  | Some (JObj pub) => get_str (str_of "name") pub
  | _ => None
  end.

Definition author_of (ms : list (list N * json)) : option (list N) :=
  match obj_get (str_of "author") ms with
  | Some (JObj auth) => get_str (str_of "name") auth
  | Some (JArr items) =>
      match author_names items with
      | [] => None
      | names => Some (join (str_of ", ") (fromkeys names))
      end
  | Some (JStr s) => Some s
  | _ => None
  end.

(** One node of a JSON-LD payload. *)
Definition ld_node (out : gmap (list N) (list N)) (n : json) : gmap (list N) (list N) :=
  match n with
  | JObj ms =>
      let out := set_if_unset (str_of "headline") (get_str (str_of "headline") ms) out in
      let out := set_if_unset (str_of "datePublished") (get_str (str_of "datePublished") ms) out in
      let out := set_if_unset (str_of "url") (get_str (str_of "url") ms) out in
      let out := set_if_unset (str_of "publisher") (publisher_of ms) out in
      set_if_unset (str_of "author") (author_of ms) out
  | _ => out
  end.

Definition ld_script (json_loads : list N -> res json)
    (out : gmap (list N) (list N)) (sc : tag) : gmap (list N) (list N) :=
  let text := match tag_string sc with
              | Some ((_ :: _) as s) => s
              | _ => tag_text sc
              end in
  match text with
  | [] => out
  | _ =>
      match json_loads text with
      | Raise _ => out
      | Ok payload =>
          let nodes := match payload with JArr l => l | _ => [payload] end in
          foldl ld_node out nodes
      end
  end.

Definition extract_json_ld (json_loads : list N -> res json) (doc : soup)
    : gmap (list N) (list N) :=
  let scripts := find_all (str_of "script")
                   (attr_matches (str_of "type") (re_search_ci (str_of "ld+json"))) doc in
  foldl (ld_script json_loads) ∅ scripts.

End Html.

(** ** Mime: the parsed container *)

Module Mime.

(** A message or part as [email.message.EmailMessage] presents it:
    [items()], [get_content_type()] (lower case, with the library's
    default), [get_content_charset()], [get_payload(decode=True)] ([None]
    on a multipart container), [is_multipart()] and the sub-parts. *)
Inductive message := Message {
  msg_items : list (list N * list N);
  msg_content_type : list N;
  msg_charset : option (list N);
  msg_payload : option (list N);
  msg_multipart : bool;
  msg_parts : list message;
}.

(** [msg.walk()]: the message itself, then its sub-parts depth first. *)
Fixpoint walk (m : message) : list message :=
  m :: (if msg_multipart m
        then (fix go (ps : list message) : list message :=
                match ps with
                | [] => []
                | p :: ps' => walk p ++ go ps'
                end) (msg_parts m)
        else []).

(** [msg.get(name)]: the first header of that name, names compared
    without case. *)
Definition msg_get (m : message) (name : list N) : option (list N) :=
  snd <$> List.find (fun kv => bool_decide (Html.lower kv.1 = Html.lower name))
                    (msg_items m).

(** [{k.lower(): str(v) for k, v in msg.items()}]: a later header of the
    same name replaces an earlier one. *)
Definition top_headers (m : message) : gmap (list N) (list N) :=
  foldl (fun d kv => <[Html.lower kv.1 := kv.2]> d) ∅ (msg_items m).

End Mime.

(** ** DateTime: the [datetime] operations the script calls *)

Module DateTime.

#[local] Open Scope Z_scope.

(** An offset ([timedelta]) is a number of microseconds; [tzinfo] is the
    fixed UTC offset of an aware value and [None] for a naive one. *)
Record datetime := {
  year : Z;
  month : Z;
  day : Z;
  hour : Z;
  minute : Z;
  second : Z;
  microsecond : Z;
  tzinfo : option Z;
}.

Definition MAXORDINAL : Z := 3652059.
Definition US_PER_SECOND : Z := 1000000.
Definition US_PER_DAY : Z := 86400 * US_PER_SECOND.

Definition timedelta_hours (h : Z) : Z := h * 3600 * US_PER_SECOND.
Definition utc : Z := 0.

Definition is_leap (y : Z) : bool :=
  (y mod 4 =? 0) && (negb (y mod 100 =? 0) || (y mod 400 =? 0)).

Definition DAYS_IN_MONTH (m : Z) : Z :=
  match m with
  | 1 => 31 | 2 => 28 | 3 => 31 | 4 => 30 | 5 => 31 | 6 => 30
  | 7 => 31 | 8 => 31 | 9 => 30 | 10 => 31 | 11 => 30 | 12 => 31
  | _ => -1
  end.

Definition DAYS_BEFORE_MONTH (m : Z) : Z :=
  match m with
  | 1 => 0 | 2 => 31 | 3 => 59 | 4 => 90 | 5 => 120 | 6 => 151
  | 7 => 181 | 8 => 212 | 9 => 243 | 10 => 273 | 11 => 304 | 12 => 334
  | _ => -1
  end.

Definition days_before_year (y : Z) : Z :=
  let y := y - 1 in y * 365 + y / 4 - y / 100 + y / 400.

Definition days_in_month (y m : Z) : Z :=
  if (m =? 2) && is_leap y then 29 else DAYS_IN_MONTH m.

Definition days_before_month (y m : Z) : Z :=
  DAYS_BEFORE_MONTH m + (if (2 <? m) && is_leap y then 1 else 0).

Definition ymd2ord (y m d : Z) : Z :=
  days_before_year y + days_before_month y m + d.

Definition DI400Y : Z := 146097.
Definition DI100Y : Z := 36524.
Definition DI4Y : Z := 1461.

Definition ord2ymd (n : Z) : Z * Z * Z :=
  let n := n - 1 in
  let n400 := n / DI400Y in
  let n := n mod DI400Y in
  let y := n400 * 400 + 1 in
  let n100 := n / DI100Y in
  let n := n mod DI100Y in
  let n4 := n / DI4Y in
  let n := n mod DI4Y in
  let n1 := n / 365 in
  let n := n mod 365 in
  let y := y + n100 * 100 + n4 * 4 + n1 in
  if (n1 =? 4) || (n100 =? 4) then (y - 1, 12, 31)
  else
    let leapyear := (n1 =? 3) && (negb (n4 =? 24) || (n100 =? 3)) in
    let m := Z.shiftr (n + 50) 5 in
    let preceding := DAYS_BEFORE_MONTH m + (if (2 <? m) && leapyear then 1 else 0) in
    if n <? preceding
    then
      let m := m - 1 in
      let preceding :=
        preceding - (DAYS_IN_MONTH m + (if (m =? 2) && leapyear then 1 else 0)) in
      (y, m, n - preceding + 1)
    else (y, m, n - preceding + 1).

(** The range checks of the [datetime] and [timezone] constructors. *)
Definition check_fields (d : datetime) : bool :=
  (1 <=? year d) && (year d <=? 9999)
  && (1 <=? month d) && (month d <=? 12)
  && (1 <=? day d) && (day d <=? days_in_month (year d) (month d))
  && (0 <=? hour d) && (hour d <? 24)
  && (0 <=? minute d) && (minute d <? 60)
  && (0 <=? second d) && (second d <? 60)
  && (0 <=? microsecond d) && (microsecond d <? US_PER_SECOND)
  && match tzinfo d with
     | Some off => (- US_PER_DAY <? off) && (off <? US_PER_DAY)
     | None => true
     end.

(** Microseconds of the wall-clock reading since the start of day 0 of
    the proleptic Gregorian calendar. *)
Definition wall_us (d : datetime) : Z :=
  ((ymd2ord (year d) (month d) (day d) * 86400
    + hour d * 3600 + minute d * 60 + second d) * US_PER_SECOND)
  + microsecond d.

(** [d + timedelta(microseconds=delta)]: [OverflowError] outside of
    years 1 to 9999. *)
Definition add_us (d : datetime) (delta : Z) : res datetime :=
  let t := wall_us d + delta in
  let days := t / US_PER_DAY in
  let r := t mod US_PER_DAY in
  if (0 <? days) && (days <=? MAXORDINAL)
  then
    let '(y, m, dd) := ord2ymd days in
    let secs := r / US_PER_SECOND in
    Ok {| year := y; month := m; day := dd;
          hour := secs / 3600; minute := (secs mod 3600) / 60;
          second := secs mod 60; microsecond := r mod US_PER_SECOND;
          tzinfo := tzinfo d |}
  else Raise OverflowError.

Definition with_tz (d : datetime) (tz : option Z) : datetime :=
  {| year := year d; month := month d; day := day d;
     hour := hour d; minute := minute d; second := second d;
     microsecond := microsecond d; tzinfo := tz |}.

(** [d.astimezone(timezone.utc)]: [(d - offset).replace(tzinfo=utc)],
    where a naive [d] takes the offset of the system's local time. *)
Definition astimezone_utc (local_utcoffset : datetime -> Z) (d : datetime)
    : res datetime :=
  let off := match tzinfo d with
             | Some off => off
             | None => local_utcoffset d
             end in
  u <-! add_us d (- off);
  Ok (with_tz u (Some utc)).

(** [datetime.fromtimestamp(ts, tz=timezone.utc)], the timestamp given
    in microseconds. *)
Definition EPOCH : datetime :=
  {| year := 1970; month := 1; day := 1; hour := 0; minute := 0;
     second := 0; microsecond := 0; tzinfo := Some utc |}.

Definition fromtimestamp_utc (ts_us : Z) : res datetime := add_us EPOCH ts_us.

(** ["%0wd" % v] for [0 <= v < 10^w]. *)
Fixpoint pad (w : nat) (v : Z) : list N :=
  match w with
  | O => []
  | S w' => pad w' (v / 10) ++ [Z.to_N (48 + v mod 10)]
  end.

Definition format_offset (tz : option Z) : list N :=
  match tz with
  | None => []
  | Some off =>
      let sign := if off <? 0 then str_of "-" else str_of "+" in
      let a := Z.abs off in
      let hh := a / (3600 * US_PER_SECOND) in
      let r := a mod (3600 * US_PER_SECOND) in
      let mm := r / (60 * US_PER_SECOND) in
      let r := r mod (60 * US_PER_SECOND) in
      let ss := r / US_PER_SECOND in
      let us := r mod US_PER_SECOND in
      sign ++ pad 2 hh ++ str_of ":" ++ pad 2 mm
      ++ (if (ss =? 0) && (us =? 0) then []
          else str_of ":" ++ pad 2 ss
               ++ (if us =? 0 then [] else str_of "." ++ pad 6 us))
  end.

(** [d.isoformat()] *)
Definition isoformat (d : datetime) : list N :=
  pad 4 (year d) ++ str_of "-" ++ pad 2 (month d) ++ str_of "-" ++ pad 2 (day d)
  ++ str_of "T"
  ++ pad 2 (hour d) ++ str_of ":" ++ pad 2 (minute d) ++ str_of ":" ++ pad 2 (second d)
  ++ (if microsecond d =? 0 then [] else str_of "." ++ pad 6 (microsecond d))
  ++ format_offset (tzinfo d).

(** ["%d" % v] for [0 <= v < 10^4]: the digits of [v] and no more. *)
Definition decimal (v : Z) : list N :=
  if v <? 10 then pad 1 v
  else if v <? 100 then pad 2 v
  else if v <? 1000 then pad 3 v
  else pad 4 v.

(** [%Y] of [strftime].  The year is written by the C library of the
    platform: glibc writes the digits of the year and no more, the
    Windows runtime fills up to four digits with zeros.  [pads_year]
    says which one the interpreter runs on. *)
Definition strftime_Y (pads_year : bool) (y : Z) : list N :=
  if pads_year then pad 4 y else decimal y.

(** [d.strftime("D:%Y%m%d%H%M%S+00'00'")] *)
Definition strftime_pdf (pads_year : bool) (d : datetime) : list N :=
  str_of "D:" ++ strftime_Y pads_year (year d) ++ pad 2 (month d) ++ pad 2 (day d)
  ++ pad 2 (hour d) ++ pad 2 (minute d) ++ pad 2 (second d)
  ++ str_of "+00'00'".

(** *** [datetime.fromisoformat]

    The texts of the form
    [YYYY-MM-DD[*HH[:MM[:SS[.fff[fff]]]][(+|-)HH:MM[:SS[.ffffff]]]]],
    which hold all that [isoformat] writes, are read here.  What the
    interpreter makes of any other text (since 3.11 it reads most of
    ISO 8601) is left to [fromisoformat_rest]. *)

Definition digit (c : N) : option Z :=
  if ((48 <=? c) && (c <=? 57))%N then Some (Z.of_N c - 48) else None.

Fixpoint take_digits (w : nat) (acc : Z) (s : list N) : option (Z * list N) :=
  match w with
  | O => Some (acc, s)
  | S w' =>
      match s with
      | c :: s' =>
          match digit c with
          | Some d => take_digits w' (10 * acc + d) s'
          | None => None
          end
      | [] => None
      end
  end.

Definition expect (c : N) (s : list N) : option (list N) :=
  match s with
  | c' :: s' => if (c =? c')%N then Some s' else None
  | [] => None
  end.

Definition COLON : N := 58.
Definition DOT : N := 46.
Definition PLUS : N := 43.
Definition MINUS : N := 45.

(** Six digits, or three that no digit follows. *)
Definition parse_frac (s : list N) : option (Z * list N) :=
  match take_digits 6 0 s with
  | Some r => Some r
  | None =>
      match take_digits 3 0 s with
      | Some (v, rest) => Some (v * 1000, rest)
      | None => None
      end
  end.

(** [HH[:MM[:SS[.fff[fff]]]]] and what follows it. *)
Definition parse_hms (s : list N) : option (Z * Z * Z * Z * list N) :=
  '(h, s1) ← take_digits 2 0 s;
  match expect COLON s1 with
  | None => Some (h, 0, 0, 0, s1)
  | Some s2 =>
      '(mi, s3) ← take_digits 2 0 s2;
      match expect COLON s3 with
      | None => Some (h, mi, 0, 0, s3)
      | Some s4 =>
          '(se, s5) ← take_digits 2 0 s4;
          match expect DOT s5 with
          | None => Some (h, mi, se, 0, s5)
          | Some s6 =>
              '(us, s7) ← parse_frac s6;
              Some (h, mi, se, us, s7)
          end
      end
  end.

(** The offset of [tzinfo_from_isoformat_results]: an offset whose whole
    seconds are zero is [timezone.utc], whatever its microseconds. *)
Definition tz_offset (seconds us : Z) : Z :=
  if seconds =? 0 then utc else seconds * US_PER_SECOND + us.

(** [HH:MM[:SS[.ffffff]]] up to the end: the offset in microseconds. *)
Definition parse_tz (s : list N) : option Z :=
  '(h, s1) ← take_digits 2 0 s;
  s2 ← expect COLON s1;
  '(mi, s3) ← take_digits 2 0 s2;
  match s3 with
  | [] => Some (tz_offset (h * 3600 + mi * 60) 0)
  | _ =>
      s4 ← expect COLON s3;
      '(se, s5) ← take_digits 2 0 s4;
      match s5 with
      | [] => Some (tz_offset (h * 3600 + mi * 60 + se) 0)
      | _ =>
          s6 ← expect DOT s5;
          '(us, s7) ← take_digits 6 0 s6;
          match s7 with
          | [] => Some (tz_offset (h * 3600 + mi * 60 + se) us)
          | _ => None
          end
      end
  end.

Definition parse_iso (s : list N) : option datetime :=
  '(y, s1) ← take_digits 4 0 s;
  s2 ← expect MINUS s1;
  '(mo, s3) ← take_digits 2 0 s2;
  s4 ← expect MINUS s3;
  '(d, s5) ← take_digits 2 0 s4;
  let mk h mi se us tz :=
    {| year := y; month := mo; day := d; hour := h; minute := mi;
       second := se; microsecond := us; tzinfo := tz |} in
  match s5 with
  | [] => Some (mk 0 0 0 0 None)
  | _sep :: t =>
      '(h, mi, se, us, rest) ← parse_hms t;
      match rest with
      | [] => Some (mk h mi se us None)
      | c :: tz =>
          if (c =? PLUS)%N then off ← parse_tz tz; Some (mk h mi se us (Some off))
          else if (c =? MINUS)%N then off ← parse_tz tz; Some (mk h mi se us (Some (- off)))
          else None
      end
  end.

Definition fromisoformat (fromisoformat_rest : list N -> res datetime) (s : list N)
    : res datetime :=
  match parse_iso s with
  | Some d => if check_fields d then Ok d else Raise ValueError
  | None => fromisoformat_rest s
  end.

(** [s.replace("Z", "+00:00")] *)
Definition replace_Z (s : list N) : list N :=
  c ← s; if (c =? 90)%N then str_of "+00:00" else [c].

(** The zone table of [parse_dt]. *)
Definition tzinfos : gmap (list N) Z :=
  list_to_map [
    (str_of "UTC", utc);
    (str_of "GMT", utc);
    (str_of "EST", timedelta_hours (-5));
    (str_of "EDT", timedelta_hours (-4));
    (str_of "CST", timedelta_hours (-6));
    (str_of "CDT", timedelta_hours (-5));
    (str_of "MST", timedelta_hours (-7));
    (str_of "MDT", timedelta_hours (-6));
    (str_of "PST", timedelta_hours (-8));
    (str_of "PDT", timedelta_hours (-7))
  ].

(** [parse_dt]; [dateparser_parse s tz] stands for
    [dateutil.parser.parse(s, tzinfos=tz)]. *)
Definition parse_dt (dateparser_parse : list N -> gmap (list N) Z -> res datetime)
    (dt_str : option (list N)) : option datetime :=
  match dt_str with
  | None | Some [] => None
  | Some s =>
      match dateparser_parse s tzinfos with
      | Ok d => Some d
      | Raise _ => None
      end
  end.

(** [pdf_dt_from_iso] *)
Definition pdf_dt_from_iso (pads_year : bool)
    (fromisoformat_rest : list N -> res datetime)
    (local_utcoffset : datetime -> Z) (iso : list N) : res (list N) :=
  dt <-! fromisoformat fromisoformat_rest (replace_Z iso);
  dt_utc <-! astimezone_utc local_utcoffset dt;
  Ok (strftime_pdf pads_year dt_utc).

End DateTime.

(** ** Paths: the [pathlib] operations the script calls

    A path is the list of its components below the filesystem root; the
    paths of the model are absolute and normalised and the store has no
    symbolic links, so [Path.resolve()] is the identity. *)

Module Paths.

Definition name (p : list (list N)) : list N := default [] (last p).

Definition parent (p : list (list N)) : list (list N) := removelast p.

Definition DOT : N := 46.

(** The text before the last dot, and the text from it on. *)
Fixpoint split_last_dot (s : list N) : option (list N * list N) :=
  match s with
  | [] => None
  | c :: s' =>
      match split_last_dot s' with
      | Some (a, b) => Some (c :: a, b)
      | None => if c =? DOT then Some ([], s) else None
      end
  end.

(** [PurePath.suffix]: from the last dot on, unless that dot is the first
    or the last character of the name. *)
Definition suffix_of (nm : list N) : list N :=
  match split_last_dot nm with
  | Some (_ :: _, (_ :: _ :: _) as b) => b
  | _ => []
  end.

Definition stem_of (nm : list N) : list N :=
  match split_last_dot nm with
  | Some ((_ :: _) as a, _ :: _ :: _) => a
  | _ => nm
  end.

Definition suffix (p : list (list N)) : list N := suffix_of (name p).
Definition stem (p : list (list N)) : list N := stem_of (name p).

(** [p.with_suffix(suf)], for the well-formed suffixes the script passes
    ([".pdf"], [".mhtml"], [".metadata.json"], [".tmp.pdf"]). *)
Definition with_suffix (p : list (list N)) (suf : list N) : res (list (list N)) :=
  match name p with
  | [] => Raise ValueError
  | nm =>
      let old_suffix := suffix_of nm in
      let nm' := match old_suffix with
                 | [] => nm ++ suf
                 | _ => take (length nm - length old_suffix) nm ++ suf
                 end in
      Ok (parent p ++ [nm'])
  end.

Fixpoint is_prefix (root p : list (list N)) : bool :=
  match root, p with
  | [], _ => true
  | r :: root', c :: p' => bool_decide (r = c) && is_prefix root' p'
  | _ :: _, [] => false
  end.

(** [p.relative_to(root)] *)
Definition relative_to (p root : list (list N)) : res (list (list N)) :=
  if is_prefix root p then Ok (drop (length root) p) else Raise ValueError.

(** [str(p)] *)
Definition path_str (p : list (list N)) : list N :=
  Html.join (str_of "/") p.

(** The order [files.sort()] uses: component by component, strings by
    code point. *)
Fixpoint str_le (a b : list N) : bool :=
  match a, b with
  | [], _ => true
  | _ :: _, [] => false
  | x :: a', y :: b' => (x <? y) || ((x =? y) && str_le a' b')
  end.

Fixpoint path_le (p q : list (list N)) : bool :=
  match p, q with
  | [], _ => true
  | _ :: _, [] => false
  | x :: p', y :: q' =>
      if bool_decide (x = y) then path_le p' q' else str_le x y
  end.

End Paths.

(** ** Store: the files and directories the script touches *)

Module Store.

Inductive node :=
  | File (content : list N) (ctime_us : Z)
  | Dir.

(** The root directory is the empty path and always exists. *)
Definition is_dir (fs : gmap (list (list N)) node) (p : list (list N)) : bool :=
  match p with
  | [] => true
  | _ => match fs !! p with Some Dir => true | _ => false end
  end.

Definition is_file (fs : gmap (list (list N)) node) (p : list (list N)) : bool :=
  match fs !! p with Some (File _ _) => true | _ => false end.

Definition exists_ (fs : gmap (list (list N)) node) (p : list (list N)) : bool :=
  is_dir fs p || is_file fs p.

(** [p.stat().st_size]; a directory has size 0. *)
Definition st_size (fs : gmap (list (list N)) node) (p : list (list N)) : res Z :=
  match fs !! p with
  | Some (File c _) => Ok (Z.of_nat (length c))
  | Some Dir => Ok 0%Z
  | None => match p with [] => Ok 0%Z | _ => Raise OSError end
  end.

(** [p.stat().st_ctime], in microseconds, of a regular file. *)
Definition st_ctime (fs : gmap (list (list N)) node) (p : list (list N)) : res Z :=
  match fs !! p with
  | Some (File _ t) => Ok t
  | _ => Raise OSError
  end.

Definition read_bytes (fs : gmap (list (list N)) node) (p : list (list N)) : res (list N) :=
  match fs !! p with
  | Some (File c _) => Ok c
  | _ => Raise OSError
  end.

(** [p.mkdir(parents=True, exist_ok=True)]: the missing directories are
    made from the root down; a regular file on the way is an error, and
    the directories made before it stay. *)
Fixpoint mkdir_from (fs : gmap (list (list N)) node) (above below : list (list N))
    : gmap (list (list N)) node * res unit :=
  match below with
  | [] => (fs, Ok tt)
  | c :: below' =>
      let q := above ++ [c] in
      match fs !! q with
      | Some (File _ _) => (fs, Raise OSError)
      | Some Dir => mkdir_from fs q below'
      | None => mkdir_from (<[q := Dir]> fs) q below'
      end
  end.

Definition mkdir (fs : gmap (list (list N)) node) (p : list (list N))
    : gmap (list (list N)) node * res unit :=
  mkdir_from fs [] p.

(** Writing a regular file: its directory must exist and the path must
    not be a directory. *)
Definition write_file (now : Z) (fs : gmap (list (list N)) node)
    (p : list (list N)) (content : list N)
    : gmap (list (list N)) node * res unit :=
  if is_dir fs (Paths.parent p) && negb (is_dir fs p)
  then (<[p := File content now]> fs, Ok tt)
  else (fs, Raise OSError).

(** [shutil.copy2(src, dst)] *)
Definition copy2 (now : Z) (fs : gmap (list (list N)) node)
    (src dst : list (list N)) : gmap (list (list N)) node * res unit :=
  match read_bytes fs src with
  | Ok c => write_file now fs dst c
  | Raise e => (fs, Raise e)
  end.

(** [p.unlink(missing_ok=True)] *)
Definition unlink (fs : gmap (list (list N)) node) (p : list (list N))
    : gmap (list (list N)) node * res unit :=
  match fs !! p with
  | Some (File _ _) => (delete p fs, Ok tt)
  | Some Dir => (fs, Raise OSError)
  | None => (fs, Ok tt)
  end.

(** [a.replace(b)] for a regular file [a]. *)
Definition replace (fs : gmap (list (list N)) node) (a b : list (list N))
    : gmap (list (list N)) node * res unit :=
  match fs !! a with
  | Some (File c t) =>
      if is_dir fs b then (fs, Raise OSError)
      else (<[b := File c t]> (delete a fs), Ok tt)
  | _ => (fs, Raise OSError)
  end.

End Store.

(** ** Meta: the records passed between the stages *)

Module Meta.

Record ExtractedMetadata := {
  title : option (list N);
  author : option (list N);
  published_date_iso : option (list N);
  source_url : option (list N);
  subject : option (list N);
  keywords : option (list N);
  language : option (list N);
  publisher : option (list N);
  archive_capture_iso : option (list N);
  source_mime : option (list N);
  content_sha256 : option (list N);
  filename : option (list N);
  source_path : option (list N);
  confidence : list N;
}.

(** The XMP properties [apply_pdf_metadata] assigns; an optional one is
    [None] when it is left alone. *)
Record xmp := {
  dc_title : list N;
  dc_creator : list (list N);
  dc_identifier : list (list N);
  dc_description : list N;
  dc_date : list (list N);
  dc_subject : option (list (list N));
  dc_language : option (list (list N));
  dc_publisher : option (list (list N));
  xmp_creatortool : list N;
}.

(** The outcome of the browser process: its output streams and the bytes
    it printed, if it printed. *)
Record completed_process := {
  proc_stdout : list N;
  proc_stderr : list N;
  proc_printed : option (list N);
}.

End Meta.

(** ** Env: the components the script calls but does not contain *)

Module Env.

Record externals := {
  (** [BytesParser(policy=policy.default).parsebytes] *)
  mime_parse : list N -> Mime.message;
  (** [BeautifulSoup(html, "html.parser")] *)
  html_parse : list N -> Html.soup;
  (** [json.loads] *)
  json_loads : list N -> res Html.json;
  (** [payload.decode(charset, errors="replace")] *)
  decode : list N -> list N -> res (list N);
  (** [raw.decode("utf-8", errors="replace")] *)
  decode_utf8 : list N -> list N;
  (** [hashlib.sha256(raw).hexdigest()] *)
  sha256_hex : list N -> list N;
  (** [dateutil.parser.parse(s, tzinfos=...)] *)
  dateparser_parse : list N -> gmap (list N) Z -> res DateTime.datetime;
  (** the UTC offset of the system's local time, in microseconds *)
  local_utcoffset : DateTime.datetime -> Z;
  (** whether [strftime] of the platform fills [%Y] up to four digits *)
  pads_year : bool;
  (** [datetime.fromisoformat] on the texts that are not of the form
      read by [DateTime.parse_iso] *)
  fromisoformat_rest : list N -> res DateTime.datetime;
  (** [datetime.now(timezone.utc)] and the time stamp of new files, in
      microseconds since the epoch *)
  now_us : Z;
  (** the headless browser printing a file *)
  browser_print : gmap (list (list N)) Store.node -> list (list N)
                  -> res Meta.completed_process;
  (** [PdfReader] on the bytes of a file *)
  pdf_read : list N -> res unit;
  (** [PdfWriter.write] of the clone with the new info dictionary and
      XMP packet *)
  pdf_write : list N -> gmap (list N) (list N) -> Meta.xmp -> res (list N);
  (** [json.dumps(asdict(meta), indent=2, ensure_ascii=False)], encoded *)
  json_dumps : Meta.ExtractedMetadata -> list N;
}.

End Env.

(** ** Extract: [extract_from_mht] *)

Module Extract.

Import Meta Env.

Definition TEXT_HTML : list N := str_of "text/html".
Definition UTF_8 : list N := str_of "utf-8".

(** [x or d] on an [Optional[str]] *)
Definition or_else (o : option (list N)) (d : list N) : list N :=
  match o with
  | Some ((_ :: _) as s) => s
  | _ => d
  end.

(** [payload.decode(charset, errors="replace") if payload else None],
    with [charset = get_content_charset() or "utf-8"]. *)
Definition decode_payload (E : externals) (p : Mime.message) : res (option (list N)) :=
  match Mime.msg_payload p with
  | Some ((_ :: _) as payload) =>
      s <-! decode E (or_else (Mime.msg_charset p) UTF_8) payload;
      Ok (Some s)
  | _ => Ok None
  end.

(** The [try ... except Exception: html = None] around it in the
    multipart branch. *)
Definition try_decode (E : externals) (p : Mime.message) : option (list N) :=
  match decode_payload E p with
  | Ok h => h
  | Raise _ => None
  end.

Definition is_html (p : Mime.message) : bool :=
  bool_decide (Html.lower (Mime.msg_content_type p) = TEXT_HTML).

(** The loop over [msg.walk()], carrying [html] and [part_url]. *)
Fixpoint scan_parts (E : externals) (parts : list Mime.message)
    (html part_url : option (list N)) : option (list N) * option (list N) :=
  match parts with
  | [] => (html, part_url)
  | p :: rest =>
      if is_html p && bool_decide (html = None)
      then scan_parts E rest (try_decode E p)
             (Text.first_nonempty_str
                [Mime.msg_get p (str_of "Content-Location"); part_url])
      else scan_parts E rest html part_url
  end.

Definition select_html (E : externals) (msg : Mime.message)
    : res (option (list N) * option (list N)) :=
  if Mime.msg_multipart msg
  then Ok (scan_parts E (Mime.walk msg) None None)
  else if is_html msg
       then html <-! decode_payload E msg; Ok (html, None)
       else Ok (None, None).

(** The text handed to the HTML parser: [if not html: html =
    raw.decode("utf-8", errors="replace")]. *)
Definition html_text (E : externals) (raw : list N) (html : option (list N)) : list N :=
  match html with
  | Some ((_ :: _) as h) => h
  | _ => decode_utf8 E raw
  end.

Definition header_url (th : gmap (list N) (list N)) : option (list N) :=
  Text.first_nonempty_str [
    th !! str_of "snapshot-content-location";
    th !! str_of "content-location";
    th !! str_of "x-original-url";
    th !! str_of "x-source-url" ].

Definition header_date (th : gmap (list N) (list N)) : option (list N) :=
  Text.first_nonempty_str [
    th !! str_of "date";
    th !! str_of "x-msfilelastmodified" ].

(** The candidates of every field, in the order of the calls. *)
Section Candidates.

Variable json_ld : gmap (list N) (list N).
Variable doc : Html.soup.
Variables hdr_date part_url hdr_url : option (list N).

Definition by_property (v : string) : option (list N) :=
  Html.meta_content doc (str_of "property") (str_of v).
Definition by_name (v : string) : option (list N) :=
  Html.meta_content doc (str_of "name") (str_of v).

Definition title_string : option (list N) :=
  match Html.find (str_of "title") (fun _ => true) doc with
  | Some t => Html.tag_string t
  | None => None
  end.

Definition canonical_href : option (list N) :=
  match Html.find (str_of "link")
          (Html.attr_matches (str_of "rel") (Html.re_search_ci (str_of "canonical"))) doc with
  | Some t => Html.tag_get t (str_of "href")
  | None => None
  end.

Definition title_candidates : list (option (list N)) := [
  by_property "og:title";
  by_name "twitter:title";
  by_name "title";
  json_ld !! str_of "headline";
  title_string ].

Definition author_candidates : list (option (list N)) := [
  by_name "author";
  by_property "article:author";
  by_name "parsely-author";
  by_name "byline";
  json_ld !! str_of "author" ].

Definition published_candidates : list (option (list N)) := [
  by_property "article:published_time";
  by_name "pubdate";
  by_name "publishdate";
  by_name "date";
  by_property "og:published_time";
  json_ld !! str_of "datePublished";
  hdr_date ].

Definition source_url_candidates : list (option (list N)) := [
  canonical_href;
  by_property "og:url";
  json_ld !! str_of "url";
  part_url;
  hdr_url ].

Definition keywords_candidates : list (option (list N)) := [
  by_name "keywords";
  by_property "article:tag" ].

Definition publisher_candidates : list (option (list N)) := [
  by_property "article:publisher";
  by_name "publisher";
  json_ld !! str_of "publisher" ].

Definition desc_candidates : list (option (list N)) := [
  by_name "description";
  by_property "og:description" ].

Definition language_of : option (list N) :=
  match Html.find (str_of "html") (fun _ => true) doc with
  | Some t => Text.clean_text (Html.tag_get t (str_of "lang"))
  | None => None
  end.

End Candidates.

(** [dt.astimezone(timezone.utc).isoformat() if dt else None] *)
Definition utc_iso (E : externals) (dt : option DateTime.datetime)
    : res (option (list N)) :=
  match dt with
  | Some d =>
      u <-! DateTime.astimezone_utc (local_utcoffset E) d;
      Ok (Some (DateTime.isoformat u))
  | None => Ok None
  end.

(** [filetime_fallback] *)
Definition filetime_fallback (fs : gmap (list (list N)) Store.node)
    (path : list (list N)) : res (list N) :=
  ts <-! Store.st_ctime fs path;
  dt <-! DateTime.fromtimestamp_utc ts;
  Ok (DateTime.isoformat dt).

(** The part of [extract_from_mht] after the file is read. *)
Definition extract_from_bytes (E : externals) (fs : gmap (list (list N)) Store.node)
    (path : list (list N)) (raw : list N) : res ExtractedMetadata :=
  let sha256 := sha256_hex E raw in
  let msg := mime_parse E raw in
  let top_headers := Mime.top_headers msg in
  let mime := match Html.lower (Mime.msg_content_type msg) with
              | [] => str_of "application/octet-stream"
              | ct => ct
              end in
  let hdr_url := header_url top_headers in
  let hdr_date := header_date top_headers in
  sel <-! select_html E msg;
  let doc := html_parse E (html_text E raw sel.1) in
  let json_ld := Html.extract_json_ld (json_loads E) doc in
  let published_raw :=
    Text.first_nonempty_str (published_candidates json_ld doc hdr_date) in
  let dt := DateTime.parse_dt (dateparser_parse E) published_raw in
  published <-! utc_iso E dt;
  capture <-! filetime_fallback fs path;
  Ok {| title := Text.first_nonempty_str (title_candidates json_ld doc);
        author := Text.first_nonempty_str (author_candidates json_ld doc);
        published_date_iso := published;
        source_url :=
          Text.first_nonempty_str (source_url_candidates json_ld doc sel.2 hdr_url);
        subject := Text.first_nonempty_str (desc_candidates doc);
        keywords := Text.first_nonempty_str (keywords_candidates doc);
        language := language_of doc;
        publisher := Text.first_nonempty_str (publisher_candidates json_ld doc);
        archive_capture_iso := Some capture;
        source_mime := Some mime;
        content_sha256 := Some sha256;
        filename := None;
        source_path := None;
        confidence := str_of "derived" |}.

Definition extract_from_mht (E : externals) (fs : gmap (list (list N)) Store.node)
    (path : list (list N)) : res ExtractedMetadata :=
  raw <-! Store.read_bytes fs path;
  extract_from_bytes E fs path raw.

End Extract.

(** ** Pdf: [apply_pdf_metadata] *)

Module Pdf.

Import Meta Env.

Definition some_if_set (o : option (list N)) : list (list N) :=
  match o with
  | Some ((_ :: _) as s) => [s]
  | _ => []
  end.

Fixpoint split_on (sep : N) (s : list N) : list (list N) :=
  match s with
  | [] => [[]]
  | c :: s' =>
      if c =? sep then [] :: split_on sep s'
      else match split_on sep s' with
           | [] => [[c]]
           | w :: ws => (c :: w) :: ws
           end
  end.

(** [[k.strip() for k in kw.split(",") if k.strip()]] *)
Definition keyword_list (kw : list N) : list (list N) :=
  List.filter (fun k => match k with [] => false | _ => true end)
              (Text.strip <$> split_on 44 kw).

(** The string of [/Subject]. *)
Definition subject_of (meta : ExtractedMetadata) (published_iso : list N) : list N :=
  let subject_parts :=
    some_if_set (subject meta)
    ++ ((fun u => str_of "Source URL: " ++ u) <$> some_if_set (source_url meta))
    ++ ((fun d => str_of "Published: " ++ d) <$> some_if_set (Some published_iso)) in
  match subject_parts with
  | [] => []
  | _ => take 2000 (Html.join (str_of " | ") subject_parts)
  end.

Definition published_of (fs : gmap (list (list N)) Store.node)
    (meta : ExtractedMetadata) (source_file : list (list N)) : res (list N) :=
  match published_date_iso meta with
  | Some ((_ :: _) as s) => Ok s
  | _ => Extract.filetime_fallback fs source_file
  end.

(** The info dictionary and the XMP packet computed by
    [apply_pdf_metadata]. *)
Definition pdf_fields (E : externals) (fs : gmap (list (list N)) Store.node)
    (meta : ExtractedMetadata) (source_file : list (list N)) (converted_iso : list N)
    : res (gmap (list N) (list N) * xmp) :=
  published_iso <-! published_of fs meta source_file;
  let title := Extract.or_else (title meta) (Paths.stem source_file) in
  let subject := subject_of meta published_iso in
  creation <-! DateTime.pdf_dt_from_iso (pads_year E) (fromisoformat_rest E)
                 (local_utcoffset E) published_iso;
  moddate <-! DateTime.pdf_dt_from_iso (pads_year E) (fromisoformat_rest E)
                (local_utcoffset E) converted_iso;
  let info : gmap (list N) (list N) := list_to_map [
    (str_of "/Title", title);
    (str_of "/Author", Extract.or_else (author meta) (str_of "Unknown"));
    (str_of "/Subject", subject);
    (str_of "/Keywords", Extract.or_else (keywords meta) []);
    (str_of "/Creator", str_of "mht2pdf metadata pipeline");
    (str_of "/Producer", str_of "mht2pdf + pypdf");
    (str_of "/CreationDate", creation);
    (str_of "/ModDate", moddate);
    (str_of "/SourceURL", Extract.or_else (source_url meta) []);
    (str_of "/SourceFile", Paths.path_str source_file);
    (str_of "/Publisher", Extract.or_else (publisher meta) []);
    (str_of "/Language", Extract.or_else (language meta) []);
    (str_of "/ArchiveCaptureDate", Extract.or_else (archive_capture_iso meta) []);
    (str_of "/ContentSHA256", Extract.or_else (content_sha256 meta) []);
    (str_of "/SourceMIME", Extract.or_else (source_mime meta) []) ] in
  let x := {|
    dc_title := title;
    dc_creator := match some_if_set (author meta) with
                  | [] => [str_of "Unknown"]
                  | l => l
                  end;
    dc_identifier := some_if_set (source_url meta);
    dc_description := subject;
    dc_date := [published_iso];
    dc_subject := match keywords meta with
                  | Some ((_ :: _) as kw) => Some (keyword_list kw)
                  | _ => None
                  end;
    dc_language := match some_if_set (language meta) with [] => None | l => Some l end;
    dc_publisher := match some_if_set (publisher meta) with [] => None | l => Some l end;
    xmp_creatortool := str_of "mht2pdf metadata pipeline" |} in
  Ok (info, x).

(** [apply_pdf_metadata]: the file is read, the fields are computed, the
    result is written beside the file ([open("wb")] makes the file before
    the writer runs) and moved over it. *)
Definition apply_pdf_metadata (E : externals) (fs : gmap (list (list N)) Store.node)
    (pdf_path : list (list N)) (meta : ExtractedMetadata)
    (source_file : list (list N)) (converted_iso : list N)
    : gmap (list (list N)) Store.node * res unit :=
  match
    (old <-! Store.read_bytes fs pdf_path;
     _ <-! pdf_read E old;
     f <-! pdf_fields E fs meta source_file converted_iso;
     tmp_out <-! Paths.with_suffix pdf_path (str_of ".tmp.pdf");
     Ok (old, f, tmp_out))
  with
  | Raise e => (fs, Raise e)
  | Ok (old, f, tmp_out) =>
      match Store.write_file (now_us E) fs tmp_out [] with
      | (fs1, Raise e) => (fs1, Raise e)
      | (fs1, Ok _) =>
          match pdf_write E old f.1 f.2 with
          | Raise e => (fs1, Raise e)
          | Ok new =>
              Store.replace (<[tmp_out := Store.File new (now_us E)]> fs1)
                            tmp_out pdf_path
          end
      end
  end.

End Pdf.

(** ** Driver: [main] *)

Module Driver.

Import Meta Env.

Inductive browser_choice := Auto | Chrome | Edge.

(** The parsed command line.  [output_root] is [None] when
    [--output-root] is absent or empty ([bool(args.output_root)] is false
    for both).  The log file is kept apart from the store: what [log]
    writes is the list of events of the state. *)
Record args := {
  source_root : list (list N);
  output_root : option (list (list N));
  browser : browser_choice;
  max_files : Z;
  skip_existing : bool;
  recurse_subdirs : bool;
}.

Inductive msg :=
  | MBrowser (exe : list (list N))
  | MSource (root : list (list N))
  | MTarget (count : nat)
  | MSkip (log_rel : list (list N))
  | MFailRender (rel : list (list N)) (err : list N)
  | MOk (log_rel : list (list N))
  | MFailError (rel : list (list N)) (e : exn)
  | MDone (ok fail : nat).

Inductive event :=
  | Log (m : msg)
  | Launch (exe input out : list (list N)).

Record state := {
  fs : gmap (list (list N)) Store.node;
  ok : nat;
  fail : nat;
  events : list event;
}.

(** State passing with exceptions: a raised exception keeps the state
    reached. *)
Definition M (A : Type) : Type := state -> state * res A.

Definition ret {A} (a : A) : M A := fun s => (s, Ok a).

Definition bind {A B} (m : M A) (k : A -> M B) : M B :=
  fun s =>
    match m s with
    | (s', Ok a) => k a s'
    | (s', Raise e) => (s', Raise e)
    end.

Notation "x <~ m ;; k" := (bind m (fun x => k))
  (at level 100, m at next level, right associativity).

Definition lift_res {A} (r : res A) : M A := fun s => (s, r).

Definition set_fs (s : state) (fs' : gmap (list (list N)) Store.node) : state :=
  {| fs := fs'; ok := ok s; fail := fail s; events := events s |}.

Definition lift_fs
    (f : gmap (list (list N)) Store.node -> gmap (list (list N)) Store.node * res unit)
    : M unit :=
  fun s => let r := f (fs s) in (set_fs s r.1, r.2).

Definition get_fs : M (gmap (list (list N)) Store.node) := fun s => (s, Ok (fs s)).

Definition emit (e : event) : M unit :=
  fun s => ({| fs := fs s; ok := ok s; fail := fail s; events := events s ++ [e] |}, Ok tt).

Definition incr_ok : M unit :=
  fun s => ({| fs := fs s; ok := S (ok s); fail := fail s; events := events s |}, Ok tt).

Definition incr_fail : M unit :=
  fun s => ({| fs := fs s; ok := ok s; fail := S (fail s); events := events s |}, Ok tt).

Definition win_path (l : list string) : list (list N) := str_of <$> l.

Definition chrome_paths : list (list (list N)) := [
  win_path ["C:"; "Program Files"; "Google"; "Chrome"; "Application"; "chrome.exe"]%string;
  win_path ["C:"; "Program Files (x86)"; "Google"; "Chrome"; "Application"; "chrome.exe"]%string ].

Definition edge_paths : list (list (list N)) := [
  win_path ["C:"; "Program Files"; "Microsoft"; "Edge"; "Application"; "msedge.exe"]%string;
  win_path ["C:"; "Program Files (x86)"; "Microsoft"; "Edge"; "Application"; "msedge.exe"]%string ].

Definition resolve_browser (fs : gmap (list (list N)) Store.node)
    (choice : browser_choice) : res (list (list N)) :=
  let order := match choice with
               | Auto => chrome_paths ++ edge_paths
               | Chrome => chrome_paths
               | Edge => edge_paths
               end in
  match List.find (Store.exists_ fs) order with
  | Some p => Ok p
  | None => Raise RuntimeError
  end.

Definition PDF_ARCHIVE : list N := str_of "_pdf_archive".

Definition effective_output_root (a : args) : list (list N) :=
  match output_root a with
  | Some r => r
  | None => source_root a ++ [PDF_ARCHIVE]
  end.

Record target := {
  rel : list (list N);
  out_pdf : list (list N);
  log_rel : list (list N);
}.

(** The head of the loop body: [rel], [out_pdf] and [log_rel]. *)
Definition derive_out (a : args) (src : list (list N)) : res target :=
  r <-! Paths.relative_to src (source_root a);
  match output_root a with
  | Some root =>
      o <-! Paths.with_suffix (root ++ r) (str_of ".pdf");
      l <-! Paths.relative_to o root;
      Ok {| rel := r; out_pdf := o; log_rel := l |}
  | None =>
      if recurse_subdirs a
      then
        let o := Paths.parent src ++ [PDF_ARCHIVE] ++ [Paths.stem src ++ str_of ".pdf"] in
        l <-! Paths.relative_to o (source_root a);
        Ok {| rel := r; out_pdf := o; log_rel := l |}
      else
        o <-! Paths.with_suffix (effective_output_root a ++ [Paths.name src]) (str_of ".pdf");
        l <-! Paths.relative_to o (effective_output_root a);
        Ok {| rel := r; out_pdf := o; log_rel := l |}
  end.

(** [args.skip_existing and out_pdf.exists() and out_pdf.stat().st_size > 0] *)
Definition should_skip (a : args) (fs : gmap (list (list N)) Store.node)
    (o : list (list N)) : bool :=
  skip_existing a && Store.exists_ fs o
  && match Store.st_size fs o with
     | Ok n => (0 <? n)%Z
     | Raise _ => false
     end.

(** [not out_pdf.exists() or out_pdf.stat().st_size == 0] *)
Definition render_failed (fs : gmap (list (list N)) Store.node)
    (o : list (list N)) : bool :=
  negb (Store.exists_ fs o)
  || match Store.st_size fs o with
     | Ok n => (n =? 0)%Z
     | Raise _ => true
     end.

Definition is_linebreak (c : N) : bool :=
  ((10 <=? c) && (c <=? 13)) || ((28 <=? c) && (c <=? 30))
  || (c =? 0x85) || (c =? 0x2028) || (c =? 0x2029).

Fixpoint first_line (s : list N) : list N :=
  match s with
  | [] => []
  | c :: s' => if is_linebreak c then [] else c :: first_line s'
  end.

(** [' '.join((proc.stderr or proc.stdout or "").strip().splitlines()[:1])] *)
Definition render_error (proc : completed_process) : list N :=
  let text := match proc_stderr proc with
              | [] => proc_stdout proc
              | e => e
              end in
  first_line (Text.strip text).

(** [render_pdf]: the browser is launched on the input; what it prints
    lands at [out] when that is a place a file can be.  The disposable
    profile directory is made and removed again. *)
Definition render_pdf (E : externals) (exe input out : list (list N))
    : M completed_process :=
  _ <~ emit (Launch exe input out) ;;
  fs0 <~ get_fs ;;
  proc <~ lift_res (browser_print E fs0 input) ;;
  _ <~ (match proc_printed proc with
        | Some b => fun s => (set_fs s (Store.write_file (now_us E) (fs s) out b).1, Ok tt)
        | None => ret tt
        end) ;;
  ret proc.

Definition is_mht (src : list (list N)) : bool :=
  bool_decide (Html.lower (Paths.suffix src) = str_of ".mht").

Definition with_file (meta : ExtractedMetadata) (src : list (list N)) : ExtractedMetadata :=
  {| title := title meta; author := author meta;
     published_date_iso := published_date_iso meta;
     source_url := source_url meta; subject := subject meta;
     keywords := keywords meta; language := language meta;
     publisher := publisher meta;
     archive_capture_iso := archive_capture_iso meta;
     source_mime := source_mime meta; content_sha256 := content_sha256 meta;
     filename := Some (Paths.name src);
     source_path := Some (Paths.path_str src);
     confidence := confidence meta |}.

Definition with_title_published (meta : ExtractedMetadata)
    (t p : option (list N)) : ExtractedMetadata :=
  {| title := t; author := author meta;
     published_date_iso := p;
     source_url := source_url meta; subject := subject meta;
     keywords := keywords meta; language := language meta;
     publisher := publisher meta;
     archive_capture_iso := archive_capture_iso meta;
     source_mime := source_mime meta; content_sha256 := content_sha256 meta;
     filename := filename meta; source_path := source_path meta;
     confidence := confidence meta |}.

Definition is_set (o : option (list N)) : bool :=
  match o with Some (_ :: _) => true | _ => false end.

(** The fallbacks of [main]: the stem for a missing title, the file time
    for a missing date. *)
Definition apply_fallbacks (meta : ExtractedMetadata) (src : list (list N))
    : M ExtractedMetadata :=
  let t := if is_set (title meta) then title meta else Some (Paths.stem src) in
  if is_set (published_date_iso meta)
  then ret (with_title_published meta t (published_date_iso meta))
  else
    fs0 <~ get_fs ;;
    iso <~ lift_res (Extract.filetime_fallback fs0 src) ;;
    ret (with_title_published meta t (Some iso)).

(** The [try] block after the extraction. *)
Definition convert (E : externals) (exe : list (list N)) (converted_iso : list N)
    (src : list (list N)) (t : target) (temp_norm : res (list (list N)))
    (meta : ExtractedMetadata) : M unit :=
  let meta := with_file meta src in
  render_input <~
    (if is_mht src
     then
       tn <~ lift_res temp_norm ;;
       _ <~ lift_fs (fun fs => Store.mkdir fs (Paths.parent tn)) ;;
       _ <~ lift_fs (fun fs => Store.copy2 (now_us E) fs src tn) ;;
       ret tn
     else ret src) ;;
  proc <~ render_pdf E exe render_input (out_pdf t) ;;
  fs1 <~ get_fs ;;
  if render_failed fs1 (out_pdf t)
  then
    _ <~ emit (Log (MFailRender (rel t) (render_error proc))) ;;
    incr_fail
  else
    meta <~ apply_fallbacks meta src ;;
    _ <~ lift_fs (fun fs =>
           Pdf.apply_pdf_metadata E fs (out_pdf t) meta src converted_iso) ;;
    sidecar <~ lift_res (Paths.with_suffix (out_pdf t) (str_of ".metadata.json")) ;;
    _ <~ lift_fs (fun fs => Store.write_file (now_us E) fs sidecar (json_dumps E meta)) ;;
    _ <~ emit (Log (MOk (log_rel t))) ;;
    incr_ok.

(** [except Exception as e: fail += 1; log(...)] *)
Definition handler (t : target) (e : exn) : M unit :=
  _ <~ incr_fail ;;
  emit (Log (MFailError (rel t) e)).

(** [finally: if temp_norm and temp_norm.exists(): temp_norm.unlink(missing_ok=True)] *)
Definition cleanup (temp_norm : option (list (list N))) : M unit :=
  match temp_norm with
  | Some tn =>
      fs0 <~ get_fs ;;
      if Store.exists_ fs0 tn then lift_fs (fun fs => Store.unlink fs tn) else ret tt
  | None => ret tt
  end.

(** [try: body  except Exception: handler  finally: cleanup] *)
Definition try_except_finally (body : M unit) (handle : exn -> M unit)
    (final : M unit) : M unit :=
  fun s =>
    match body s with
    | (s1, Ok _) => final s1
    | (s1, Raise e) =>
        match handle e s1 with
        | (s2, Ok _) => final s2
        | (s2, Raise e') =>
            match final s2 with
            | (s3, Ok _) => (s3, Raise e')
            | (s3, Raise e'') => (s3, Raise e'')
            end
        end
    end.

(** One turn of the loop.  [temp_norm] is assigned only once the
    extraction has returned and the source is an [.mht] file. *)
Definition process_file (E : externals) (a : args) (norm_root exe : list (list N))
    (converted_iso : list N) (src : list (list N)) : M unit :=
  t <~ lift_res (derive_out a src) ;;
  _ <~ lift_fs (fun fs => Store.mkdir fs (Paths.parent (out_pdf t))) ;;
  fs0 <~ get_fs ;;
  if should_skip a fs0 (out_pdf t)
  then emit (Log (MSkip (log_rel t)))
  else
    let extracted := Extract.extract_from_mht E fs0 src in
    let temp_norm := Paths.with_suffix (norm_root ++ rel t) (str_of ".mhtml") in
    let assigned :=
      match extracted, temp_norm with
      | Ok _, Ok tn => if is_mht src then Some tn else None
      | _, _ => None
      end in
    try_except_finally
      (meta <~ lift_res extracted ;;
       convert E exe converted_iso src t temp_norm meta)
      (handler t)
      (cleanup assigned).

(** [for src in files: ...] *)
Fixpoint run_files (E : externals) (a : args) (norm_root exe : list (list N))
    (converted_iso : list N) (files : list (list (list N))) : M unit :=
  match files with
  | [] => ret tt
  | src :: rest =>
      _ <~ process_file E a norm_root exe converted_iso src ;;
      run_files E a norm_root exe converted_iso rest
  end.

(** The candidates: regular files below the source root (directly below
    it without [--recurse-subdirs]) whose suffix is [.mht] or [.mhtml]. *)
Definition is_candidate (a : args) (fs : gmap (list (list N)) Store.node)
    (p : list (list N)) : bool :=
  Paths.is_prefix (source_root a) p
  && (if recurse_subdirs a
      then (length (source_root a) <? length p)%nat
      else (length p =? S (length (source_root a)))%nat)
  && Store.is_file fs p
  && (bool_decide (Html.lower (Paths.suffix p) = str_of ".mht")
      || bool_decide (Html.lower (Paths.suffix p) = str_of ".mhtml")).

Definition enumerate (a : args) (fs : gmap (list (list N)) Store.node)
    : list (list (list N)) :=
  let files := merge_sort (fun p q => Is_true (Paths.path_le p q))
                 (List.filter (is_candidate a fs) (map_to_list fs).*1) in
  if (0 <? max_files a)%Z then take (Z.to_nat (max_files a)) files else files.

Definition exit_status (s : state) : Z :=
  match fail s with O => 0%Z | _ => 2%Z end.

Definition main_body (E : externals) (a : args) : M Z :=
  let root := effective_output_root a in
  _ <~ lift_fs (fun fs => Store.mkdir fs root) ;;
  let tmp_root := Paths.parent root ++ [str_of "tmp"] in
  let norm_root := tmp_root ++ [str_of "normalized-mhtml"] in
  let profile_root := tmp_root ++ [str_of "chrome-profiles"] in
  _ <~ lift_fs (fun fs => Store.mkdir fs norm_root) ;;
  _ <~ lift_fs (fun fs => Store.mkdir fs profile_root) ;;
  fs0 <~ get_fs ;;
  exe <~ lift_res (resolve_browser fs0 (browser a)) ;;
  _ <~ emit (Log (MBrowser exe)) ;;
  _ <~ emit (Log (MSource (source_root a))) ;;
  let files := enumerate a fs0 in
  _ <~ emit (Log (MTarget (length files))) ;;
  converted_iso <~ lift_res (dt <-! DateTime.fromtimestamp_utc (now_us E);
                             Ok (DateTime.isoformat dt)) ;;
  _ <~ run_files E a norm_root exe converted_iso files ;;
  fun s =>
    ({| fs := fs s; ok := ok s; fail := fail s;
        events := events s ++ [Log (MDone (ok s) (fail s))] |},
     Ok (exit_status s)).

(** [main] on a store: the final state, and the exit status or the
    exception that ended the run. *)
Definition main (E : externals) (a : args) (fs0 : gmap (list (list N)) Store.node)
    : state * res Z :=
  main_body E a {| fs := fs0; ok := 0; fail := 0; events := [] |}.

End Driver.

(** ** Props: the predicates the statements below use *)

Module Props.

(** [r] is the normal form of the first candidate that has one, and
    [None] when no candidate has one. *)
Definition first_clean (cands : list (option (list N))) (r : option (list N)) : Prop :=
  match r with
  | Some s =>
      ∃ i c, cands !! i = Some c ∧ Text.clean_text c = Some s ∧
             ∀ j c', (j < i)%nat → cands !! j = Some c' → Text.clean_text c' = None
  | None => ∀ c, c ∈ cands → Text.clean_text c = None
  end.

(** The order of the title candidates as the specification words it:
    the structured-data block before the meta tags. *)
Definition title_structured_data_first (json_ld : gmap (list N) (list N))
    (doc : Html.soup) : option (list N) :=
  Text.first_nonempty_str [
    json_ld !! str_of "headline";
    Extract.by_property doc "og:title";
    Extract.by_name doc "twitter:title";
    Extract.by_name doc "title";
    Extract.title_string doc ].

(** The HTML body as the specification words it: the first part of type
    [text/html] in traversal order, decoded. *)
Definition first_html_part (E : Env.externals) (msg : Mime.message)
    : option (list N) :=
  match List.find Extract.is_html (Mime.walk msg) with
  | Some p => Extract.try_decode E p
  | None => None
  end.

(** The wall-clock readings a [datetime] can hold: from
    0001-01-01T00:00:00 to 9999-12-31T23:59:59.999999. *)
Definition representable (t : Z) : Prop :=
  (DateTime.US_PER_DAY <= t < (DateTime.MAXORDINAL + 1) * DateTime.US_PER_DAY)%Z.

(** The text [D:YYYYMMDDHHMMSS+00'00'] of a reading. *)
Definition pdf_date_text (u : DateTime.datetime) : list N :=
  str_of "D:" ++ DateTime.pad 4 (DateTime.year u) ++ DateTime.pad 2 (DateTime.month u)
  ++ DateTime.pad 2 (DateTime.day u) ++ DateTime.pad 2 (DateTime.hour u)
  ++ DateTime.pad 2 (DateTime.minute u) ++ DateTime.pad 2 (DateTime.second u)
  ++ str_of "+00'00'".

(** The offset that [fromisoformat] reads from the text that [isoformat]
    writes for the offset [off]: an offset below one second comes back
    as UTC. *)
Definition offset_read_back (off : Z) : Z :=
  if (Z.abs off <? DateTime.US_PER_SECOND)%Z then DateTime.utc else off.

(** Every node of the store lies in directories of the store. *)
Definition well_formed (fs : gmap (list (list N)) Store.node) : bool :=
  forallb (fun kv =>
             forallb (fun k => Store.is_dir fs (take k kv.1))
                     (seq 1 (length kv.1 - 1)))
          (map_to_list fs).

(** The verdicts of the log: one line per file. *)
Definition is_ok_line (e : Driver.event) : bool :=
  match e with Driver.Log (Driver.MOk _) => true | _ => false end.

Definition is_fail_line (e : Driver.event) : bool :=
  match e with
  | Driver.Log (Driver.MFailRender _ _) | Driver.Log (Driver.MFailError _ _) => true
  | _ => false
  end.

Definition is_skip_line (e : Driver.event) : bool :=
  match e with Driver.Log (Driver.MSkip _) => true | _ => false end.

Definition is_verdict (e : Driver.event) : bool :=
  is_ok_line e || is_fail_line e || is_skip_line e.

Definition count (f : Driver.event -> bool) (evs : list Driver.event) : nat :=
  length (List.filter f evs).

(** A step that gives no verdict and leaves the counters alone. *)
Definition quiet {A} (m : Driver.M A) : Prop :=
  ∀ s s' r, m s = (s', r) →
    Driver.ok s' = Driver.ok s ∧ Driver.fail s' = Driver.fail s ∧
    ∃ new, Driver.events s' = Driver.events s ++ new ∧ count is_verdict new = 0%nat.

(** The events [new] hold one verdict, and the counters moved with it. *)
Definition counted (s s' : Driver.state) (new : list Driver.event) (n : nat) : Prop :=
  Driver.events s' = Driver.events s ++ new ∧
  count is_verdict new = n ∧
  Driver.ok s' = (Driver.ok s + count is_ok_line new)%nat ∧
  Driver.fail s' = (Driver.fail s + count is_fail_line new)%nat.

(** A computation that gives its verdict when it returns, and none when
    it raises. *)
Definition judging {A} (m : Driver.M A) : Prop :=
  ∀ s s' r, m s = (s', r) →
    ∃ new, counted s s' new (match r with Ok _ => 1 | Raise _ => 0 end)%nat.

End Props.

(** ** Demo: concrete inputs *)

Module Demo.

Import Meta Env.

Definition attrs (l : list (string * string)) : gmap (list N) (list N) :=
  list_to_map ((fun kv => (str_of kv.1, str_of kv.2)) <$> l).

Definition elem (name : string) (a : list (string * string)) (text : string) : Html.tag :=
  {| Html.tag_name := str_of name; Html.tag_attrs := attrs a;
     Html.tag_string := match text with EmptyString => None | _ => Some (str_of text) end;
     Html.tag_text := str_of text |}.

(** A page whose meta tag and JSON-LD block both give a title. *)
Definition page : Html.soup := [
  elem "html" [("lang", "en")]%string "";
  elem "title" [] " Page  title ";
  elem "meta" [("property", "og:title"); ("content", "Meta title")]%string "";
  elem "script" [("type", "application/ld+json")]%string "ld-block" ].

(** A page with a JSON-LD block and no title in a meta tag. *)
Definition page_ld_only : Html.soup := [
  elem "html" []%string "";
  elem "script" [("type", "application/ld+json")]%string "ld-block" ].

Definition loads (text : list N) : res Html.json :=
  if bool_decide (text = str_of "ld-block")
  then Ok (Html.JObj [(str_of "headline", Html.JStr (str_of "LD headline"));
                      (str_of "datePublished", Html.JStr (str_of "2024-03-01 01:30 EST"))])
  else Raise ValueError.

(** Codecs that agree with the interpreter's on ASCII input; any other
    byte becomes U+FFFD.  Other charset names are unknown. *)
Definition ascii_replace (b : list N) : list N :=
  (fun c => if c <? 128 then c else 0xFFFD) <$> b.

Definition codecs (charset payload : list N) : res (list N) :=
  if bool_decide (charset ∈ [str_of "utf-8"; str_of "us-ascii"; str_of "ascii"])
  then Ok (ascii_replace payload)
  else Raise LookupError.

(** A date parser that knows one text; it takes the zone from the table
    it is given. *)
Definition dates (s : list N) (tz : gmap (list N) Z) : res DateTime.datetime :=
  if bool_decide (s = str_of "2024-03-01 01:30 EST")
  then Ok {| DateTime.year := 2024; DateTime.month := 3; DateTime.day := 1;
             DateTime.hour := 1; DateTime.minute := 30; DateTime.second := 0;
             DateTime.microsecond := 0; DateTime.tzinfo := tz !! str_of "EST" |}
  else Raise ValueError.

(** 2024-03-01T01:30:00+05:30 and 2024-03-01T01:30:00-05:00 *)
Definition d0 : DateTime.datetime :=
  {| DateTime.year := 2024; DateTime.month := 3; DateTime.day := 1;
     DateTime.hour := 1; DateTime.minute := 30; DateTime.second := 0;
     DateTime.microsecond := 0; DateTime.tzinfo := Some 19800000000%Z |}.

Definition d_est : DateTime.datetime :=
  DateTime.with_tz d0 (Some (DateTime.timedelta_hours (-5))).

Definition externals_for (msg : Mime.message) (doc : Html.soup) : externals :=
  {| mime_parse := fun _ => msg;
     html_parse := fun _ => doc;
     json_loads := loads;
     decode := codecs;
     decode_utf8 := ascii_replace;
     sha256_hex := fun _ => [];
     dateparser_parse := dates;
     local_utcoffset := fun _ => 0%Z;
     pads_year := false;
     fromisoformat_rest := fun _ => Raise ValueError;
     now_us := 1700000000000000%Z;
     browser_print := fun _ _ =>
       Ok {| proc_stdout := []; proc_stderr := []; proc_printed := Some (str_of "%PDF-1.7") |};
     pdf_read := fun _ => Ok tt;
     pdf_write := fun old _ _ => Ok (old ++ str_of " stamped");
     json_dumps := fun _ => str_of "{}" |}.

Definition leaf (ctype : string) (charset : option string) (location : option string)
    (payload : string) : Mime.message :=
  {| Mime.msg_items :=
       match location with
       | Some l => [(str_of "Content-Location", str_of l)]
       | None => []
       end;
     Mime.msg_content_type := str_of ctype;
     Mime.msg_charset := str_of <$> charset;
     Mime.msg_payload := Some (str_of payload);
     Mime.msg_multipart := false;
     Mime.msg_parts := [] |}.

Definition container (items : list (string * string)) (parts : list Mime.message)
    : Mime.message :=
  {| Mime.msg_items := (fun kv => (str_of kv.1, str_of kv.2)) <$> items;
     Mime.msg_content_type := str_of "multipart/related";
     Mime.msg_charset := None;
     Mime.msg_payload := None;
     Mime.msg_multipart := true;
     Mime.msg_parts := parts |}.

(** An archive with one HTML part. *)
Definition archive : Mime.message :=
  container [("Snapshot-Content-Location", "https://example.org/a");
             ("Date", "Fri, 01 Mar 2024 06:30:00 GMT")]%string
    [leaf "text/html" (Some "utf-8"%string) (Some "https://example.org/a"%string)
          "<html>A</html>"].

(** An archive whose first HTML part is empty. *)
Definition archive_empty_first : Mime.message :=
  container []
    [leaf "text/html" None None "";
     leaf "text/html" (Some "us-ascii"%string) None "<html>B</html>"].

(** A single-part HTML message in a charset no codec knows. *)
Definition single_unknown_charset : Mime.message :=
  leaf "text/html" (Some "x-unknown"%string) None "<html>C</html>".

Definition E1 : externals := externals_for archive page.

Definition E9 : externals := externals_for single_unknown_charset page.

Definition src_root : list (list N) := [str_of "archive"].
Definition src_file : list (list N) := [str_of "archive"; str_of "a.mht"].

Definition store : gmap (list (list N)) Store.node :=
  list_to_map [
    (src_root, Store.Dir);
    (src_file, Store.File (str_of "MIME-Version: 1.0") 1709274600000000%Z) ].

(** [--source-root archive], and the same with [--skip-existing]. *)
Definition flat_args : Driver.args :=
  {| Driver.source_root := src_root; Driver.output_root := None;
     Driver.browser := Driver.Auto; Driver.max_files := 0;
     Driver.skip_existing := false; Driver.recurse_subdirs := false |}.

Definition skip_args : Driver.args :=
  {| Driver.source_root := src_root; Driver.output_root := None;
     Driver.browser := Driver.Auto; Driver.max_files := 0;
     Driver.skip_existing := true; Driver.recurse_subdirs := false |}.

(** A store with a browser installed and one archive to convert. *)
Fixpoint ancestors (p : list (list N)) (n : nat) : list (list (list N) * Store.node) :=
  match n with
  | O => []
  | S n' => (take n p, Store.Dir) :: ancestors p n'
  end.

Definition chrome_exe : list (list N) := hd [] Driver.chrome_paths.

Definition installed : list (list (list N) * Store.node) :=
  (chrome_exe, Store.File [1] 0%Z) :: ancestors chrome_exe 5.

Definition out_file : list (list N) :=
  [str_of "archive"; str_of "_pdf_archive"; str_of "a.pdf"].

Definition store_ready : gmap (list (list N)) Store.node :=
  list_to_map ([ (src_root, Store.Dir);
                 (src_file, Store.File (str_of "MIME-Version: 1.0") 1709274600000000%Z) ]
               ++ installed).

(** The same after a run that left a PDF, and with an empty PDF. *)
Definition store_converted : gmap (list (list N)) Store.node :=
  <[out_file := Store.File (str_of "%PDF-1.7 stamped") 1700000000000000%Z]>
    (<[take 2 out_file := Store.Dir]> store_ready).

Definition store_empty_pdf : gmap (list (list N)) Store.node :=
  <[out_file := Store.File [] 1700000000000000%Z]>
    (<[take 2 out_file := Store.Dir]> store_ready).

Definition s_converted : Driver.state :=
  {| Driver.fs := store_converted; Driver.ok := 0; Driver.fail := 0;
     Driver.events := [] |}.

(** A tree in which [_pdf_archive] beside the first archive is a regular
    file. *)
Definition deep_args : Driver.args :=
  {| Driver.source_root := src_root; Driver.output_root := Some [str_of "out"];
     Driver.browser := Driver.Auto; Driver.max_files := 0;
     Driver.skip_existing := false; Driver.recurse_subdirs := true |}.

Definition nested_args : Driver.args :=
  {| Driver.source_root := src_root; Driver.output_root := None;
     Driver.browser := Driver.Auto; Driver.max_files := 0;
     Driver.skip_existing := false; Driver.recurse_subdirs := true |}.

Definition store_blocked : gmap (list (list N)) Store.node :=
  list_to_map ([ (src_root, Store.Dir);
                 ([str_of "archive"; str_of "a"], Store.Dir);
                 ([str_of "archive"; str_of "a"; str_of "one.mht"],
                  Store.File (str_of "MIME-Version: 1.0") 1709274600000000%Z);
                 ([str_of "archive"; str_of "a"; str_of "_pdf_archive"],
                  Store.File (str_of "not a directory") 1709274600000000%Z);
                 ([str_of "archive"; str_of "b"], Store.Dir);
                 ([str_of "archive"; str_of "b"; str_of "two.mht"],
                  Store.File (str_of "MIME-Version: 1.0") 1709274600000000%Z) ]
               ++ installed).

(** Metadata with nothing extracted. *)
Definition untitled : ExtractedMetadata :=
  {| title := None; author := None; published_date_iso := None;
     source_url := None; subject := None; keywords := None; language := None;
     publisher := None; archive_capture_iso := None; source_mime := None;
     content_sha256 := None; filename := None; source_path := None;
     confidence := str_of "derived" |}.

End Demo.

(** * Properties *)

#[local] Arguments Text.clean_text : simpl never.

Import Meta Env Props.

(** ** Whitespace normalisation *)

Section TextFacts.
Import Text.

Lemma sub_ws_true_starts_clean s : starts_clean (sub_ws true s) = true.
Proof.
  induction s as [|c s IH]; simpl; [done|].
  destruct (isspace c) eqn:Hc; simpl; [done|]. by rewrite Hc.
Qed.

Lemma sub_ws_single_spaced b s : single_spaced (sub_ws b s) = true.
Proof.
  revert b. induction s as [|c s IH]; intros b; simpl; [done|].
  destruct (isspace c) eqn:Hc.
  - destruct b; [apply IH|].
    simpl. rewrite IH, andb_true_r.
    pose proof (sub_ws_true_starts_clean s) as Hs.
    destruct (sub_ws true s); simpl in *; done.
  - simpl. by rewrite Hc, IH.
Qed.

Lemma single_spaced_tail c s : single_spaced (c :: s) = true → single_spaced s = true.
Proof. simpl. intros H. by apply andb_true_iff in H as [_ ?]. Qed.

Lemma lstrip_single_spaced s : single_spaced s = true → single_spaced (lstrip s) = true.
Proof.
  induction s as [|c s IH]; [done|]. intros H.
  simpl. destruct (isspace c); [|done].
  apply IH. by eapply single_spaced_tail.
Qed.

Lemma lstrip_starts_clean s : starts_clean (lstrip s) = true.
Proof.
  induction s as [|c s IH]; [done|]. simpl.
  destruct (isspace c) eqn:Hc; [done|]. simpl. by rewrite Hc.
Qed.

Lemma rstrip_cons_nonspace c s :
  isspace c = false → ∃ r, rstrip (c :: s) = c :: r.
Proof.
  intros Hc. simpl. destruct (rstrip s); [|by eauto].
  rewrite Hc. by eauto.
Qed.

Lemma rstrip_prefix s : rstrip s `prefix_of` s.
Proof.
  induction s as [|c s IH]; [done|]. simpl.
  destruct (rstrip s) as [|d r] eqn:Hr.
  - destruct (isspace c); [apply prefix_nil|].
    apply prefix_cons, prefix_nil.
  - by apply prefix_cons.
Qed.

Lemma single_spaced_prefix s t :
  s `prefix_of` t → single_spaced t = true → single_spaced s = true.
Proof.
  intros [k ->]. induction s as [|c s IH]; [done|].
  simpl. intros H. apply andb_true_iff in H as [H1 H2].
  rewrite (IH H2), andb_true_r.
  destruct (isspace c); [|done].
  apply andb_true_iff in H1 as [-> H1]. simpl.
  destruct s; simpl in *; done.
Qed.

Lemma rstrip_starts_clean s : starts_clean s = true → starts_clean (rstrip s) = true.
Proof.
  destruct s as [|c s]; [done|]. cbn [starts_clean]. intros Hc.
  apply negb_true_iff in Hc.
  destruct (rstrip_cons_nonspace c s Hc) as [r ->]. simpl. by rewrite Hc.
Qed.

Lemma rstrip_ends_clean s : ends_clean (rstrip s) = true.
Proof.
  unfold ends_clean. induction s as [|c s IH]; [done|]. simpl.
  destruct (rstrip s) as [|d r] eqn:Hr.
  - destruct (isspace c) eqn:Hc; [done|]. simpl. by rewrite Hc.
  - by rewrite last_cons_cons.
Qed.

Lemma strip_facts v :
  let t := strip (sub_ws false v) in
  single_spaced t = true ∧ starts_clean t = true ∧ ends_clean t = true.
Proof.
  intros t. subst t. unfold strip. split_and!.
  - eapply single_spaced_prefix; [apply rstrip_prefix|].
    apply lstrip_single_spaced, sub_ws_single_spaced.
  - apply rstrip_starts_clean, lstrip_starts_clean.
  - apply rstrip_ends_clean.
Qed.

Lemma sub_ws_fixed b s :
  single_spaced s = true → (b = true → starts_clean s = true) → sub_ws b s = s.
Proof.
  revert b. induction s as [|c s IH]; intros b Hs Hb; [done|].
  simpl in *. apply andb_true_iff in Hs as [H1 H2].
  destruct (isspace c) eqn:Hc.
  - destruct b; [by specialize (Hb eq_refl)|].
    apply andb_true_iff in H1 as [Heq H1]. apply N.eqb_eq in Heq as ->.
    f_equal. apply IH; [done|]. intros _. by destruct s.
  - f_equal. apply IH; [done|]. done.
Qed.

Lemma lstrip_fixed s : starts_clean s = true → lstrip s = s.
Proof.
  destruct s as [|c s]; [done|]. simpl. intros H.
  apply negb_true_iff in H. by rewrite H.
Qed.

Lemma rstrip_fixed s : ends_clean s = true → rstrip s = s.
Proof.
  unfold ends_clean. induction s as [|c s IH]; [done|].
  destruct s as [|d s].
  - simpl. intros H. apply negb_true_iff in H. by rewrite H.
  - rewrite last_cons_cons. intros H. specialize (IH H).
    change (rstrip (c :: d :: s)) with
      (match rstrip (d :: s) with [] => if isspace c then [] else [c] | r => c :: r end).
    by rewrite IH.
Qed.

Lemma clean_text_Some_inv v s :
  clean_text v = Some s →
  s ≠ [] ∧ single_spaced s = true ∧ starts_clean s = true ∧ ends_clean s = true.
Proof.
  destruct v as [[|c v]|]; [done| |done].
  unfold clean_text. intros H.
  destruct (strip_facts (c :: v)) as (H1 & H2 & H3).
  destruct (strip (sub_ws false (c :: v))) as [|d t] eqn:Ht; [done|].
  injection H as <-. done.
Qed.

Lemma clean_text_fixed s :
  s ≠ [] → single_spaced s = true → starts_clean s = true → ends_clean s = true →
  clean_text (Some s) = Some s.
Proof.
  intros Hne H1 H2 H3. unfold clean_text, strip.
  rewrite sub_ws_fixed, lstrip_fixed, rstrip_fixed by done.
  by destruct s.
Qed.

Lemma clean_text_idempotent v : clean_text (clean_text v) = clean_text v.
Proof.
  destruct (clean_text v) as [s|] eqn:Hv; [|done].
  apply clean_text_Some_inv in Hv as (? & ? & ? & ?).
  by apply clean_text_fixed.
Qed.

Lemma single_spaced_no_run s i c d :
  single_spaced s = true → s !! i = Some c → s !! (S i) = Some d →
  ¬ (isspace c = true ∧ isspace d = true).
Proof.
  revert i. induction s as [|x s IH]; intros i Hs Hc Hd; [done|].
  destruct i as [|i].
  - simpl in Hc, Hd. injection Hc as ->. intros [Hx Hy].
    simpl in Hs. rewrite Hx in Hs.
    destruct s as [|y s]; [done|]. simpl in Hd. injection Hd as ->.
    rewrite Hy in Hs. simpl in Hs. by rewrite andb_false_r in Hs.
  - simpl in Hc, Hd. eapply IH; eauto. by eapply single_spaced_tail.
Qed.

Lemma clean_forms_normalized s :
  s ≠ [] → single_spaced s = true → starts_clean s = true → ends_clean s = true →
  normalized s.
Proof.
  intros Hne H1 H2 H3. unfold normalized. split_and!; [done| | | |].
  - intros c Hc. destruct s; simplify_eq/=. by apply negb_true_iff.
  - intros c Hc. unfold ends_clean in H3. rewrite Hc in H3. by apply negb_true_iff.
  - intros i c d. by apply single_spaced_no_run.
  - destruct s as [|c s]; [done|]. exists c. split; [apply list_elem_of_here|].
    by apply negb_true_iff.
Qed.

Lemma first_nonempty_VStr values s :
  first_nonempty values = VStr s →
  ∃ v, VStr v ∈ values ∧ clean_text (Some v) = Some s.
Proof.
  induction values as [|v values IH]; [done|]. simpl.
  destruct v as [|t|b|z].
  - simpl. intros H. destruct (IH H) as (v & ? & ?). exists v. split; [by apply list_elem_of_further|done].
  - destruct (clean_text (Some t)) as [c|] eqn:Hc; simpl.
    + apply clean_text_Some_inv in Hc as Hc'. destruct c; simpl.
      * intros H. destruct (IH H) as (v & ? & ?). exists v. split; [by apply list_elem_of_further|done].
      * intros [= <-]. exists t. split; [apply list_elem_of_here|done].
    + intros H. destruct (IH H) as (v & ? & ?). exists v. split; [by apply list_elem_of_further|done].
  - simpl. destruct b; [done|].
    intros H. destruct (IH H) as (v & ? & ?). exists v. split; [by apply list_elem_of_further|done].
  - simpl. destruct (negb (z =? 0)%Z); [done|].
    intros H. destruct (IH H) as (v & ? & ?). exists v. split; [by apply list_elem_of_further|done].
Qed.

End TextFacts.

(** C8.  Whitespace normalisation is idempotent: [clean_text] applied to
    its own result changes nothing.  Hence a string that [first_nonempty]
    returns, whatever the values it was given, is not empty and not made
    of whitespace only, has no whitespace at either end, and has no two
    whitespace characters in a row. *)
Theorem clean_text_idempotent_normal_form :
  (∀ v, Text.clean_text (Text.clean_text v) = Text.clean_text v) ∧
  (∀ values s, Text.first_nonempty values = Text.VStr s → Text.normalized s).
Proof.
  split; [apply clean_text_idempotent|].
  intros values s H.
  destruct (first_nonempty_VStr values s H) as (v & _ & Hv).
  apply clean_text_Some_inv in Hv as (? & ? & ? & ?).
  by apply clean_forms_normalized.
Qed.

Lemma clean_text_idempotent_normal_form_witness :
  Text.first_nonempty
    [Text.VNone; Text.VStr [32; 9]; Text.VInt 0; Text.VStr (str_of "  a    b ")]
    = Text.VStr (str_of "a b") ∧
  Text.normalized (str_of "a b").
Proof.
  split; [reflexivity|].
  apply (proj2 clean_text_idempotent_normal_form
           [Text.VNone; Text.VStr [32; 9]; Text.VInt 0; Text.VStr (str_of "  a    b ")]).
  reflexivity.
Defined.

(** ** Field resolution *)

Section ResolutionFacts.
Import Text Props.

Lemma first_nonempty_str_cons c cands :
  first_nonempty_str (c :: cands) =
  match clean_text c with
  | Some s => Some s
  | None => first_nonempty_str cands
  end.
Proof.
  unfold first_nonempty_str. rewrite fmap_cons. cbn [first_nonempty].
  destruct c as [t|]; cbn [of_opt].
  - destruct (clean_text (Some t)) as [s|] eqn:Hs; cbn [of_opt]; [|done].
    apply clean_text_Some_inv in Hs as [Hne _].
    destruct s; done.
  - done.
Qed.

Lemma first_nonempty_str_spec cands : first_clean cands (first_nonempty_str cands).
Proof.
  induction cands as [|c cands IH].
  - intros c Hc. by apply elem_of_nil in Hc.
  - rewrite first_nonempty_str_cons.
    destruct (clean_text c) as [s|] eqn:Hc.
    + exists 0%nat, c. split_and!; [done|done|]. intros j c' Hj. lia.
    + unfold first_clean in *.
      destruct (first_nonempty_str cands) as [s|].
      * destruct IH as (i & c0 & Hi & Hs & Hbefore).
        exists (S i), c0. split_and!; [done|done|].
        intros [|j] c' Hj Hl; simpl in Hl; [by simplify_eq|].
        eapply Hbefore; [|done]. lia.
      * intros c' Hc'. apply elem_of_cons in Hc' as [->|Hc']; [done|by apply IH].
Qed.

End ResolutionFacts.

Lemma extract_published_inv E fs path raw meta :
  Extract.extract_from_bytes E fs path raw = Ok meta →
  ∃ published_raw,
    Extract.utc_iso E (DateTime.parse_dt (dateparser_parse E) published_raw)
    = Ok (published_date_iso meta).
Proof.
  unfold Extract.extract_from_bytes. intros H.
  destruct (Extract.select_html E (mime_parse E raw)) as [sel|e]; [|done].
  cbn [bind_res] in H.
  match type of H with
  | bind_res (Extract.utc_iso E (DateTime.parse_dt _ ?p)) _ = _ =>
      exists p; destruct (Extract.utc_iso E (DateTime.parse_dt (dateparser_parse E) p))
        as [published|e]; [|done]
  end.
  cbn [bind_res] in H.
  destruct (Extract.filetime_fallback fs path) as [capture|e]; [|done].
  cbn [bind_res] in H. by injection H as <-.
Qed.

(** C1, as amended.  Every field is the normal form of the first
    candidate, in the order of the calls, whose whitespace-normalised
    text is not empty, and [None] when no candidate has one.  The order
    puts the meta tags before the structured-data block: for the title,
    [og:title], [twitter:title], the meta [title], then the JSON-LD
    headline, then the [<title>] element; for the source URL the
    canonical link comes first, then [og:url], the JSON-LD [url], the
    location of the HTML part and the capture URL.  The language is the
    normalised [lang] attribute of the [<html>] element alone. *)
Theorem field_resolution_order (E : externals) (fs : gmap (list (list N)) Store.node)
    (path : list (list N)) (raw : list N) (meta : ExtractedMetadata) :
  Extract.extract_from_bytes E fs path raw = Ok meta →
  ∃ (sel : option (list N) * option (list N)) (published_raw : option (list N)),
    let msg := mime_parse E raw in
    let doc := html_parse E (Extract.html_text E raw sel.1) in
    let json_ld := Html.extract_json_ld (json_loads E) doc in
    let by_property v := Html.meta_content doc (str_of "property") (str_of v) in
    let by_name v := Html.meta_content doc (str_of "name") (str_of v) in
    Extract.select_html E msg = Ok sel ∧
    first_clean [ by_property "og:title"; by_name "twitter:title"; by_name "title";
                  json_ld !! str_of "headline"; Extract.title_string doc ]
                (title meta) ∧
    first_clean [ by_name "author"; by_property "article:author";
                  by_name "parsely-author"; by_name "byline";
                  json_ld !! str_of "author" ]
                (author meta) ∧
    first_clean [ by_property "article:published_time"; by_name "pubdate";
                  by_name "publishdate"; by_name "date";
                  by_property "og:published_time";
                  json_ld !! str_of "datePublished";
                  Extract.header_date (Mime.top_headers msg) ]
                published_raw ∧
    Extract.utc_iso E (DateTime.parse_dt (dateparser_parse E) published_raw)
      = Ok (published_date_iso meta) ∧
    first_clean [ Extract.canonical_href doc; by_property "og:url";
                  json_ld !! str_of "url"; sel.2;
                  Extract.header_url (Mime.top_headers msg) ]
                (source_url meta) ∧
    first_clean [ by_name "keywords"; by_property "article:tag" ] (keywords meta) ∧
    first_clean [ by_property "article:publisher"; by_name "publisher";
                  json_ld !! str_of "publisher" ]
                (publisher meta) ∧
    first_clean [ by_name "description"; by_property "og:description" ] (subject meta) ∧
    language meta =
      match Html.find (str_of "html") (fun _ => true) doc with
      | Some t => Text.clean_text (Html.tag_get t (str_of "lang"))
      | None => None
      end.
Proof.
  unfold Extract.extract_from_bytes. intros H.
  destruct (Extract.select_html E (mime_parse E raw)) as [sel|e] eqn:Hsel; [|done].
  cbn [bind_res] in H.
  match type of H with
  | bind_res (Extract.utc_iso E (DateTime.parse_dt _ ?p)) _ = _ =>
      exists sel, p; destruct (Extract.utc_iso E (DateTime.parse_dt (dateparser_parse E) p))
        as [published|e] eqn:Hpub; [|done]
  end.
  cbn [bind_res] in H.
  destruct (Extract.filetime_fallback fs path) as [capture|e]; [|done].
  cbn [bind_res] in H. injection H as <-. cbn zeta.
  cbn [title author published_date_iso source_url keywords publisher subject language].
  split_and!; try done; try apply first_nonempty_str_spec.
Qed.

Lemma field_resolution_order_witness :
  ∃ meta,
    Extract.extract_from_bytes Demo.E1 Demo.store Demo.src_file
      (str_of "MIME-Version: 1.0") = Ok meta ∧
    first_clean [ Some (str_of "Meta title"); None; None;
                  Some (str_of "LD headline"); Some (str_of " Page  title ") ]
                (title meta).
Proof.
  destruct (Extract.extract_from_bytes Demo.E1 Demo.store Demo.src_file
              (str_of "MIME-Version: 1.0")) as [meta|e] eqn:H.
  - exists meta. split; [reflexivity|].
    destruct (field_resolution_order _ _ _ _ _ H) as (sel & praw & _ & Ht & _).
    exact Ht.
  - vm_compute in H. discriminate H.
Defined.

(** C1 as stated fails on a page that has both an [og:title] meta tag
    and a JSON-LD headline: the title is the meta tag's, not the
    headline. *)
Lemma title_meta_before_json_ld :
  ∃ meta,
    Extract.extract_from_mht Demo.E1 Demo.store Demo.src_file = Ok meta ∧
    Html.extract_json_ld (json_loads Demo.E1) Demo.page !! str_of "headline"
      = Some (str_of "LD headline") ∧
    title_structured_data_first (Html.extract_json_ld (json_loads Demo.E1) Demo.page) Demo.page
      = Some (str_of "LD headline") ∧
    title meta = Some (str_of "Meta title") ∧
    title meta ≠ title_structured_data_first
                   (Html.extract_json_ld (json_loads Demo.E1) Demo.page) Demo.page.
Proof.
  eexists. split; [vm_compute; reflexivity|].
  split; [vm_compute; reflexivity|].
  split; [vm_compute; reflexivity|].
  split; [vm_compute; reflexivity|].
  vm_compute. discriminate.
Qed.

(** ** The HTML part and the capture headers *)

Section SelectionFacts.
Variable E : externals.

Lemma scan_parts_Some parts h u :
  (Extract.scan_parts E parts (Some h) u).1 = Some h.
Proof.
  revert u. induction parts as [|p parts IH]; intros u; [done|].
  cbn [Extract.scan_parts]. rewrite bool_decide_eq_false_2 by done.
  rewrite andb_false_r. apply IH.
Qed.

Lemma scan_parts_None parts u :
  (Extract.scan_parts E parts None u).1 =
  match List.find (fun p => Extract.is_html p
                            && bool_decide (is_Some (Extract.try_decode E p)))
                   parts with
  | Some p => Extract.try_decode E p
  | None => None
  end.
Proof.
  revert u. induction parts as [|p parts IH]; intros u; [done|].
  cbn [Extract.scan_parts List.find].
  rewrite bool_decide_eq_true_2 by done. rewrite andb_true_r.
  destruct (Extract.is_html p); cbn [andb]; [|apply IH].
  destruct (Extract.try_decode E p) as [h|] eqn:Hd.
  - rewrite bool_decide_eq_true_2 by eauto. rewrite Hd. apply scan_parts_Some.
  - rewrite bool_decide_eq_false_2 by (by intros [? ?]). apply IH.
Qed.

Lemma try_decode_Some p s :
  Extract.try_decode E p = Some s ↔
  ∃ payload, Mime.msg_payload p = Some payload ∧ payload ≠ [] ∧
             decode E (Extract.or_else (Mime.msg_charset p) Extract.UTF_8) payload = Ok s.
Proof.
  unfold Extract.try_decode, Extract.decode_payload.
  destruct (Mime.msg_payload p) as [[|c payload]|].
  - split; [done|]. by intros (? & [= <-] & ? & _).
  - destruct (decode E _ (c :: payload)) as [t|e] eqn:Hd; cbn [bind_res].
    + split.
      * intros [= <-]. by exists (c :: payload).
      * intros (? & [= <-] & _ & Hd'). congruence.
    + split; [done|]. intros (? & [= <-] & _ & Hd'). congruence.
  - split; [done|]. by intros (? & ? & _).
Qed.

End SelectionFacts.

(** C4, as amended.  In a multipart container the HTML body is the text
    of the first part in traversal order that has type [text/html], a
    payload that is not empty, and a charset (its own, or utf-8) in which
    the payload decodes; parts of type [text/html] without such a payload
    are passed over.  The capture URL is the first of the top-level
    headers Snapshot-Content-Location, Content-Location, X-Original-URL,
    X-Source-URL with a non-empty normal form, the capture date the first
    of Date and X-MSFileLastModified. *)
Theorem html_part_selection (E : externals) (msg : Mime.message) :
  Mime.msg_multipart msg = true →
  let th := Mime.top_headers msg in
  (∃ part_url,
     Extract.select_html E msg =
     Ok (match List.find
                 (fun p => Extract.is_html p
                           && bool_decide (is_Some (Extract.try_decode E p)))
                 (Mime.walk msg) with
         | Some p => Extract.try_decode E p
         | None => None
         end, part_url)) ∧
  (∀ p s,
     Extract.try_decode E p = Some s ↔
     ∃ payload, Mime.msg_payload p = Some payload ∧ payload ≠ [] ∧
       decode E (Extract.or_else (Mime.msg_charset p) (str_of "utf-8")) payload = Ok s) ∧
  first_clean [ th !! str_of "snapshot-content-location";
                th !! str_of "content-location";
                th !! str_of "x-original-url";
                th !! str_of "x-source-url" ]
              (Extract.header_url th) ∧
  first_clean [ th !! str_of "date"; th !! str_of "x-msfilelastmodified" ]
              (Extract.header_date th).
Proof.
  intros Hm th. split_and!.
  - unfold Extract.select_html. rewrite Hm.
    exists (Extract.scan_parts E (Mime.walk msg) None None).2.
    f_equal. rewrite <- (scan_parts_None E (Mime.walk msg) None).
    by destruct (Extract.scan_parts E (Mime.walk msg) None None).
  - apply try_decode_Some.
  - apply first_nonempty_str_spec.
  - apply first_nonempty_str_spec.
Qed.

Lemma html_part_selection_witness :
  Extract.select_html Demo.E1 Demo.archive_empty_first
  = Ok (Some (str_of "<html>B</html>"), None).
Proof.
  destruct (html_part_selection Demo.E1 Demo.archive_empty_first eq_refl)
    as [[part_url Hsel] _].
  rewrite Hsel. vm_compute in Hsel. injection Hsel as <-. reflexivity.
Defined.

(** C4 as stated fails on an archive whose first [text/html] part is
    empty: the body is taken from the second one. *)
Lemma html_part_not_the_first :
  List.find Extract.is_html (Mime.walk Demo.archive_empty_first)
    = Some (Demo.leaf "text/html" None None "") ∧
  first_html_part Demo.E1 Demo.archive_empty_first = None ∧
  Extract.select_html Demo.E1 Demo.archive_empty_first
    = Ok (Some (str_of "<html>B</html>"), None) ∧
  (Extract.select_html Demo.E1 Demo.archive_empty_first
     ≠ Ok (first_html_part Demo.E1 Demo.archive_empty_first, None)).
Proof.
  split_and!; [vm_compute; reflexivity ..|]. vm_compute. discriminate.
Qed.

(** C9.  On a message that is not multipart, of type [text/html] and in
    a charset no codec knows, the decoding error is not caught: the
    extraction raises [LookupError] and the raw bytes are not used. *)
Lemma single_part_decode_error_escapes :
  Extract.select_html Demo.E9
    Demo.single_unknown_charset = Raise LookupError ∧
  Extract.extract_from_mht Demo.E9
    Demo.store Demo.src_file = Raise LookupError.
Proof. split; vm_compute; reflexivity. Qed.

(** In a multipart container the selection itself never raises. *)
Lemma multipart_selection_total (E : externals) (msg : Mime.message) :
  Mime.msg_multipart msg = true → ∃ sel, Extract.select_html E msg = Ok sel.
Proof. intros H. unfold Extract.select_html. rewrite H. eauto. Qed.

(** ** The calendar *)

Section CalendarFacts.
Import DateTime.
#[local] Open Scope Z_scope.

(** The civil-from-days split of an ordinal. *)
Lemma ordinal_split n :
  1 ≤ n ≤ MAXORDINAL →
  ∃ a b c e r,
    n - 1 = 146097 * a + 36524 * b + 1461 * c + 365 * e + r ∧
    (n - 1) / DI400Y = a ∧
    ((n - 1) mod DI400Y) / DI100Y = b ∧
    (((n - 1) mod DI400Y) mod DI100Y) / DI4Y = c ∧
    ((((n - 1) mod DI400Y) mod DI100Y) mod DI4Y) / 365 = e ∧
    ((((n - 1) mod DI400Y) mod DI100Y) mod DI4Y) mod 365 = r ∧
    0 ≤ a ≤ 24 ∧ 0 ≤ b ≤ 4 ∧ 0 ≤ c ≤ 24 ∧ 0 ≤ e ≤ 4 ∧ 0 ≤ r < 365 ∧
    (b = 4 → c = 0 ∧ e = 0 ∧ r = 0) ∧
    (e = 4 → r = 0) ∧
    (c = 24 → e ≤ 3) ∧
    (a = 24 → b = 4 ∨ 400 * a + 100 * b + 4 * c + e < 9999).
Proof.
  unfold MAXORDINAL, DI400Y, DI100Y, DI4Y. intros Hn.
  eexists _, _, _, _, _.
  split; [|split; [reflexivity|split; [reflexivity|split; [reflexivity|split; [reflexivity|split; [reflexivity|]]]]]].
  - Z.div_mod_to_equations. lia.
  - Z.div_mod_to_equations. lia.
Qed.

Lemma days_before_year_split a b c e :
  0 ≤ a → 0 ≤ b ≤ 3 → 0 ≤ c ≤ 24 → 0 ≤ e ≤ 3 →
  days_before_year (400 * a + 100 * b + 4 * c + e + 1)
  = 146097 * a + 36524 * b + 1461 * c + 365 * e.
Proof.
  intros. unfold days_before_year. Z.div_mod_to_equations. lia.
Qed.

Lemma days_before_year_cycle_end a b c e :
  0 ≤ a → 0 ≤ b ≤ 4 → 0 ≤ c ≤ 24 → 0 ≤ e ≤ 4 →
  (b = 4 → c = 0 ∧ e = 0) → (c = 24 → e ≤ 3) → (b = 4 ∨ e = 4) →
  days_before_year (400 * a + 100 * b + 4 * c + e)
  + (if is_leap (400 * a + 100 * b + 4 * c + e) then 366 else 365)
  = 146097 * a + 36524 * b + 1461 * c + 365 * e + 1.
Proof.
  intros. unfold days_before_year, is_leap.
  repeat match goal with
  | |- context [(?x =? ?y)] => destruct (Z.eqb_spec x y)
  end; cbn [negb andb orb]; Z.div_mod_to_equations; lia.
Qed.

Lemma is_leap_split a b c e :
  0 ≤ a → 0 ≤ b ≤ 3 → 0 ≤ c ≤ 24 → 0 ≤ e ≤ 3 →
  is_leap (400 * a + 100 * b + 4 * c + e + 1)
  = (e =? 3) && (negb (c =? 24) || (b =? 3)).
Proof.
  intros. unfold is_leap.
  repeat match goal with
  | |- context [(?x =? ?y)] => destruct (Z.eqb_spec x y)
  end; cbn [negb andb orb]; try reflexivity; exfalso; Z.div_mod_to_equations; lia.
Qed.

(** Month and day of the [n]-th day (from 0) of a year. *)
Lemma month_day_split (leapyear : bool) n :
  0 ≤ n < 365 + (if leapyear then 1 else 0) →
  let m := Z.shiftr (n + 50) 5 in
  let preceding := DAYS_BEFORE_MONTH m + (if (2 <? m) && leapyear then 1 else 0) in
  let m' := if n <? preceding then m - 1 else m in
  let preceding' :=
    if n <? preceding
    then preceding - (DAYS_IN_MONTH (m - 1) + (if (m - 1 =? 2) && leapyear then 1 else 0))
    else preceding in
  1 ≤ m' ≤ 12 ∧
  preceding' = DAYS_BEFORE_MONTH m' + (if (2 <? m') && leapyear then 1 else 0) ∧
  1 ≤ n - preceding' + 1
    ≤ (if (m' =? 2) && leapyear then 29 else DAYS_IN_MONTH m').
Proof.
  intros Hn. rewrite Z.shiftr_div_pow2 by lia. change (2 ^ 5) with 32.
  assert (Hm : 1 ≤ (n + 50) / 32 ≤ 12)
    by (destruct leapyear; Z.div_mod_to_equations; lia).
  assert (Hq : 32 * ((n + 50) / 32) ≤ n + 50 < 32 * ((n + 50) / 32) + 32)
    by (Z.div_mod_to_equations; lia).
  revert Hm Hq. generalize ((n + 50) / 32). intros m Hm Hq. cbn zeta.
  assert (Hcases : m = 1 ∨ m = 2 ∨ m = 3 ∨ m = 4 ∨ m = 5 ∨ m = 6 ∨ m = 7
                   ∨ m = 8 ∨ m = 9 ∨ m = 10 ∨ m = 11 ∨ m = 12) by lia.
  destruct leapyear;
    repeat (destruct Hcases as [->|Hcases]); try subst m;
    cbn -[Z.ltb Z.add Z.sub Z.le Z.lt];
    repeat match goal with
    | |- context [(?a - ?b)] =>
        match a with Zpos _ => match b with Zpos _ =>
          let v := eval vm_compute in (a - b) in change (a - b) with v end end
    | |- context [(?a <? ?b)] =>
        match a with Zpos _ => match b with Zpos _ =>
          let v := eval vm_compute in (a <? b) in change (a <? b) with v end end
    end;
    cbn -[Z.ltb Z.add Z.sub Z.le Z.lt];
    repeat match goal with
    | |- context [(n <? ?p)] => destruct (Z.ltb_spec n p)
    end;
    cbn -[Z.add Z.sub Z.le Z.lt];
    lia.
Qed.

Lemma ord2ymd_spec n :
  1 ≤ n ≤ MAXORDINAL →
  ∃ y m d, ord2ymd n = (y, m, d) ∧ 1 ≤ y ≤ 9999 ∧ 1 ≤ m ≤ 12 ∧
           1 ≤ d ≤ days_in_month y m ∧ ymd2ord y m d = n.
Proof.
  intros Hn.
  destruct (ordinal_split n Hn)
    as (a & b & c & e & r & Hsum & Ha & Hb & Hc & He & Hr & Ba & Bb & Bc & Be & Br
        & Hb4 & He4 & Hc24 & Hmax).
  unfold MAXORDINAL in Hn.
  unfold ord2ymd. cbn zeta. rewrite Ha, Hb, Hc, He, Hr.
  replace (a * 400 + 1 + b * 100 + c * 4 + e) with (400 * a + 100 * b + 4 * c + e + 1) by lia.
  destruct ((e =? 4) || (b =? 4)) eqn:Hend.
  - apply orb_true_iff in Hend. rewrite !Z.eqb_eq in Hend.
    replace (400 * a + 100 * b + 4 * c + e + 1 - 1) with (400 * a + 100 * b + 4 * c + e) by lia.
    eexists _, _, _. split; [reflexivity|].
    pose proof (days_before_year_cycle_end a b c e) as Hy.
    unfold ymd2ord, days_in_month, days_before_month. cbn [DAYS_IN_MONTH DAYS_BEFORE_MONTH].
    change (2 <? 12) with true. cbn [andb].
    specialize (Hy ltac:(lia) ltac:(lia) ltac:(lia) ltac:(lia) ltac:(lia) ltac:(lia) ltac:(lia)).
    change (12 =? 2) with false. cbn [andb].
    destruct (is_leap (400 * a + 100 * b + 4 * c + e)); lia.
  - apply orb_false_iff in Hend as [He' Hb']. apply Z.eqb_neq in He', Hb'.
    set (leapyear := (e =? 3) && (negb (c =? 24) || (b =? 3))).
    pose proof (month_day_split leapyear r) as Hmd. cbn zeta in Hmd.
    pose proof (days_before_year_split a b c e) as Hy.
    pose proof (is_leap_split a b c e) as Hl. fold leapyear in Hl.
    unfold ymd2ord, days_in_month, days_before_month.
    destruct (r <? _) eqn:Hlt in Hmd |- *.
    + eexists _, _, _. split; [reflexivity|].
      rewrite Hl by lia. rewrite Hy by lia.
      destruct Hmd as (Hm & Hp & Hd); [destruct leapyear; lia|].
      split; [lia|]. split; [done|]. split; [done|]. lia.
    + eexists _, _, _. split; [reflexivity|].
      rewrite Hl by lia. rewrite Hy by lia.
      destruct Hmd as (Hm & Hp & Hd); [destruct leapyear; lia|].
      split; [lia|]. split; [done|]. split; [done|]. lia.
Qed.

Lemma check_fields_iff d :
  check_fields d = true ↔
  (1 ≤ year d ≤ 9999) ∧ (1 ≤ month d ≤ 12) ∧
  (1 ≤ day d ≤ days_in_month (year d) (month d)) ∧
  (0 ≤ hour d < 24) ∧ (0 ≤ minute d < 60) ∧ (0 ≤ second d < 60) ∧
  (0 ≤ microsecond d < US_PER_SECOND) ∧
  match tzinfo d with
  | Some off => - US_PER_DAY < off < US_PER_DAY
  | None => True
  end.
Proof.
  unfold check_fields. rewrite !andb_true_iff, !Z.leb_le, !Z.ltb_lt.
  destruct (tzinfo d); [rewrite andb_true_iff, !Z.ltb_lt|]; tauto.
Qed.

Lemma add_us_spec d delta :
  US_PER_DAY ≤ wall_us d + delta < (MAXORDINAL + 1) * US_PER_DAY →
  ∃ u, add_us d delta = Ok u ∧
       wall_us u = wall_us d + delta ∧
       tzinfo u = tzinfo d ∧
       ∀ tz, match tz with
             | Some off => - US_PER_DAY < off < US_PER_DAY
             | None => True
             end →
             check_fields (with_tz u tz) = true.
Proof.
  intros Ht. unfold add_us. set (t := wall_us d + delta) in *.
  assert (Hdays : 1 ≤ t / US_PER_DAY ≤ MAXORDINAL).
  { unfold US_PER_DAY, US_PER_SECOND, MAXORDINAL in *. Z.div_mod_to_equations. lia. }
  destruct (ord2ymd_spec _ Hdays) as (y & m & dd & Hymd & Hy & Hm & Hd & Hord).
  rewrite Hymd.
  replace ((0 <? t / US_PER_DAY) && (t / US_PER_DAY <=? MAXORDINAL)) with true
    by (symmetry; apply andb_true_iff; rewrite Z.ltb_lt, Z.leb_le; lia).
  eexists. split; [reflexivity|]. split; [|split; [reflexivity|]].
  - unfold wall_us. cbn [year month day hour minute second microsecond]. rewrite Hord.
    unfold US_PER_DAY, US_PER_SECOND in *. Z.div_mod_to_equations. lia.
  - intros tz Htz. apply check_fields_iff.
    cbn [with_tz year month day hour minute second microsecond tzinfo].
    split; [done|]. split; [done|]. split; [done|].
    unfold US_PER_DAY, US_PER_SECOND in *.
    split_and!; try (Z.div_mod_to_equations; lia). done.
Qed.

Lemma astimezone_utc_spec local d off :
  check_fields d = true →
  match tzinfo d with Some o => o | None => local d end = off →
  US_PER_DAY ≤ wall_us d - off < (MAXORDINAL + 1) * US_PER_DAY →
  ∃ u, astimezone_utc local d = Ok u ∧ check_fields u = true ∧
       tzinfo u = Some utc ∧ wall_us u = wall_us d - off.
Proof.
  intros Hd Htz Hr. unfold astimezone_utc. rewrite Htz.
  destruct (add_us_spec d (- off)) as (u & Hu & Hw & _ & Hc);
    [by rewrite Z.add_opp_r|].
  rewrite Hu. cbn [bind_res]. eexists. split; [reflexivity|].
  split; [|split; [reflexivity|]].
  - apply Hc. unfold utc, US_PER_DAY, US_PER_SECOND. lia.
  - rewrite <- Z.add_opp_r, <- Hw. reflexivity.
Qed.
End CalendarFacts.

(** ** Readings and ordinals *)

Section OrdinalFacts.
Import DateTime.
#[local] Open Scope Z_scope.

Lemma days_before_year_succ y :
  days_before_year (y + 1) = days_before_year y + 365 + (if is_leap y then 1 else 0).
Proof.
  unfold days_before_year, is_leap.
  replace (y + 1 - 1) with y by lia.
  repeat match goal with
  | |- context [(?x =? ?y)] => destruct (Z.eqb_spec x y)
  end; cbn [negb andb orb]; Z.div_mod_to_equations; lia.
Qed.

Lemma days_before_year_mono y y' :
  y < y' →
  days_before_year y + 365 + (if is_leap y then 1 else 0) ≤ days_before_year y'.
Proof.
  intros H. replace y' with (y + 1 + (y' - y - 1)) by lia.
  assert (Hk : 0 ≤ y' - y - 1) by lia. revert Hk. generalize (y' - y - 1). clear.
  intros k Hk. pattern k. apply natlike_ind; [| |exact Hk].
  - rewrite Z.add_0_r, days_before_year_succ. lia.
  - intros x Hx IH. replace (y + 1 + Z.succ x) with (y + 1 + x + 1) by lia.
    rewrite days_before_year_succ. destruct (is_leap (y + 1 + x)); lia.
Qed.

Lemma day_of_year_bounds y m d :
  1 ≤ m ≤ 12 → 1 ≤ d ≤ days_in_month y m →
  1 ≤ days_before_month y m + d ≤ 365 + (if is_leap y then 1 else 0).
Proof.
  intros Hm. unfold days_in_month, days_before_month.
  assert (Hc : m = 1 ∨ m = 2 ∨ m = 3 ∨ m = 4 ∨ m = 5 ∨ m = 6 ∨ m = 7
               ∨ m = 8 ∨ m = 9 ∨ m = 10 ∨ m = 11 ∨ m = 12) by lia.
  destruct (is_leap y);
    repeat (destruct Hc as [->|Hc]); try subst m; cbn; lia.
Qed.

Lemma day_of_year_inj y m d m' d' :
  1 ≤ m ≤ 12 → 1 ≤ d ≤ days_in_month y m →
  1 ≤ m' ≤ 12 → 1 ≤ d' ≤ days_in_month y m' →
  days_before_month y m + d = days_before_month y m' + d' →
  m = m' ∧ d = d'.
Proof.
  intros Hm Hd Hm' Hd'. unfold days_in_month, days_before_month in *.
  assert (Hc : m = 1 ∨ m = 2 ∨ m = 3 ∨ m = 4 ∨ m = 5 ∨ m = 6 ∨ m = 7
               ∨ m = 8 ∨ m = 9 ∨ m = 10 ∨ m = 11 ∨ m = 12) by lia.
  assert (Hc' : m' = 1 ∨ m' = 2 ∨ m' = 3 ∨ m' = 4 ∨ m' = 5 ∨ m' = 6 ∨ m' = 7
               ∨ m' = 8 ∨ m' = 9 ∨ m' = 10 ∨ m' = 11 ∨ m' = 12) by lia.
  destruct (is_leap y);
    repeat (destruct Hc as [->|Hc]); try subst m;
    repeat (destruct Hc' as [->|Hc']); try subst m';
    cbn in *; lia.
Qed.

Lemma ymd2ord_inj y m d y' m' d' :
  1 ≤ m ≤ 12 → 1 ≤ d ≤ days_in_month y m →
  1 ≤ m' ≤ 12 → 1 ≤ d' ≤ days_in_month y' m' →
  ymd2ord y m d = ymd2ord y' m' d' →
  y = y' ∧ m = m' ∧ d = d'.
Proof.
  intros Hm Hd Hm' Hd' Heq. unfold ymd2ord in Heq.
  pose proof (day_of_year_bounds y m d Hm Hd) as Hb.
  pose proof (day_of_year_bounds y' m' d' Hm' Hd') as Hb'.
  assert (y = y') as <-.
  { destruct (Z.lt_trichotomy y y') as [Hlt|[?|Hgt]]; [|done|].
    - pose proof (days_before_year_mono y y' Hlt). lia.
    - pose proof (days_before_year_mono y' y Hgt). lia. }
  split; [done|]. eapply day_of_year_inj; eauto. lia.
Qed.

Lemma wall_us_inj u u' :
  check_fields u = true → check_fields u' = true →
  tzinfo u = tzinfo u' → wall_us u = wall_us u' → u = u'.
Proof.
  intros Hu Hu' Htz Hw.
  apply check_fields_iff in Hu as (Hy & Hm & Hd & Hh & Hmi & Hs & Hus & _).
  apply check_fields_iff in Hu' as (Hy' & Hm' & Hd' & Hh' & Hmi' & Hs' & Hus' & _).
  unfold wall_us, US_PER_SECOND in *.
  assert (Hord : ymd2ord (year u) (month u) (day u) = ymd2ord (year u') (month u') (day u')) by lia.
  destruct (ymd2ord_inj _ _ _ _ _ _ Hm Hd Hm' Hd' Hord) as (Ey & Em & Ed).
  destruct u, u'. cbn in *. subst.
  assert (hour0 = hour1) by lia. assert (minute0 = minute1) by lia.
  assert (second0 = second1) by lia. assert (microsecond0 = microsecond1) by lia.
  by subst.
Qed.

Lemma ymd2ord_bounds y m d :
  1 ≤ y ≤ 9999 → 1 ≤ m ≤ 12 → 1 ≤ d ≤ days_in_month y m →
  1 ≤ ymd2ord y m d ≤ MAXORDINAL.
Proof.
  intros Hy Hm Hd. unfold ymd2ord, MAXORDINAL.
  pose proof (day_of_year_bounds y m d Hm Hd) as Hb.
  assert (H1 : days_before_year 1 = 0) by reflexivity.
  assert (H9 : days_before_year 9999 = 3651694) by reflexivity.
  assert (Hl9 : is_leap 9999 = false) by reflexivity.
  assert (0 ≤ days_before_year y).
  { destruct (Z.eq_dec y 1) as [->|]; [lia|].
    pose proof (days_before_year_mono 1 y ltac:(lia)) as Hmono.
    change (is_leap 1) with false in Hmono. cbv iota in Hmono. lia. }
  assert (days_before_year y + 365 + (if is_leap y then 1 else 0) ≤ 3652059).
  { destruct (Z.eq_dec y 9999) as [->|]; [rewrite H9, Hl9; lia|].
    pose proof (days_before_year_mono y 9999 ltac:(lia)). destruct (is_leap y); lia. }
  destruct (is_leap y); lia.
Qed.

Lemma wall_us_representable d : check_fields d = true → representable (wall_us d).
Proof.
  intros Hd. apply check_fields_iff in Hd as (Hy & Hm & Hdd & Hh & Hmi & Hs & Hus & _).
  pose proof (ymd2ord_bounds _ _ _ Hy Hm Hdd) as Hb.
  unfold representable, wall_us, US_PER_DAY, US_PER_SECOND, MAXORDINAL in *. lia.
Qed.

(** A UTC value is its own conversion to UTC. *)
Lemma astimezone_utc_fixed local d :
  check_fields d = true → tzinfo d = Some utc → astimezone_utc local d = Ok d.
Proof.
  intros Hd Htz.
  destruct (astimezone_utc_spec local d 0 Hd) as (u & Hu & Hc & Hutc & Hw).
  - by rewrite Htz.
  - rewrite Z.sub_0_r. by apply wall_us_representable.
  - rewrite Hu. f_equal. apply wall_us_inj; [done|done|congruence|lia].
Qed.

End OrdinalFacts.

(** ** ISO texts *)

Section IsoFacts.
Import DateTime.
#[local] Open Scope Z_scope.

Lemma digit_of_last v : digit (Z.to_N (48 + v mod 10)) = Some (v mod 10).
Proof.
  unfold digit.
  assert (0 ≤ v mod 10 < 10) by (apply Z.mod_pos_bound; lia).
  replace ((48 <=? Z.to_N (48 + v mod 10))%N && (Z.to_N (48 + v mod 10) <=? 57)%N)
    with true by (symmetry; apply andb_true_iff; rewrite !N.leb_le; lia).
  f_equal. lia.
Qed.

Lemma take_digits_snoc w acc s :
  take_digits (S w) acc s =
  match take_digits w acc s with
  | Some (a, c :: r) =>
      match digit c with
      | Some d => Some (10 * a + d, r)
      | None => None
      end
  | _ => None
  end.
Proof.
  revert acc s. induction w as [|w IH]; intros acc s.
  - cbn [take_digits]. destruct s as [|c r]; [done|]. by destruct (digit c).
  - change (take_digits (S (S w)) acc s) with
      (match s with
       | c :: s' => match digit c with
                    | Some d => take_digits (S w) (10 * acc + d) s'
                    | None => None
                    end
       | [] => None
       end).
    destruct s as [|c s']; [done|]. cbn [take_digits].
    destruct (digit c) as [d|]; [|done]. apply IH.
Qed.

Lemma take_digits_pad w v acc rest :
  0 ≤ v < 10 ^ Z.of_nat w →
  take_digits w acc (pad w v ++ rest) = Some (acc * 10 ^ Z.of_nat w + v, rest).
Proof.
  revert v rest. induction w as [|w IH]; intros v rest Hv.
  - cbn. f_equal. f_equal. change (10 ^ 0) with 1 in *. lia.
  - rewrite take_digits_snoc. cbn [pad]. rewrite <- app_assoc. cbn [app].
    assert (Hp : 10 ^ Z.of_nat (S w) = 10 * 10 ^ Z.of_nat w)
      by (rewrite Nat2Z.inj_succ, Z.pow_succ_r; lia).
    rewrite IH by (rewrite Hp in Hv; Z.div_mod_to_equations; lia).
    rewrite digit_of_last. f_equal. f_equal. rewrite Hp.
    Z.div_mod_to_equations. lia.
Qed.

Lemma pad_no_Z w v : Forall (fun c => c ≠ 90%N) (pad w v).
Proof.
  revert v. induction w as [|w IH]; intros v; cbn [pad]; [constructor|].
  apply Forall_app. split; [apply IH|]. constructor; [|constructor].
  assert (0 ≤ v mod 10 < 10) by (apply Z.mod_pos_bound; lia). lia.
Qed.

Lemma replace_Z_fixed s : Forall (fun c => c ≠ 90%N) s → replace_Z s = s.
Proof.
  unfold replace_Z. induction 1 as [|c s Hc _ IH]; [done|].
  cbn. apply N.eqb_neq in Hc. rewrite Hc. cbn. f_equal. exact IH.
Qed.

Lemma replace_Z_app s t : replace_Z (s ++ t) = replace_Z s ++ replace_Z t.
Proof. unfold replace_Z. apply bind_app. Qed.

Lemma take_digits_pad0 w v rest :
  0 ≤ v < 10 ^ Z.of_nat w →
  take_digits w 0 (pad w v ++ rest) = Some (v, rest).
Proof. intros H. rewrite take_digits_pad by done. f_equal. Qed.

(** The time of day as [isoformat] prints it. *)
Lemma parse_hms_format h mi se us tail :
  0 ≤ h < 24 → 0 ≤ mi < 60 → 0 ≤ se < 60 → 0 ≤ us < US_PER_SECOND →
  expect DOT tail = None →
  parse_hms (pad 2 h ++ COLON :: pad 2 mi ++ COLON :: pad 2 se
             ++ (if us =? 0 then [] else DOT :: pad 6 us) ++ tail)
  = Some (h, mi, se, us, tail).
Proof.
  intros Hh Hmi Hse Hus Htail. unfold US_PER_SECOND in Hus. unfold parse_hms.
  rewrite take_digits_pad0 by (cbn; lia). cbn [mbind option_bind expect COLON N.eqb Pos.eqb].
  rewrite take_digits_pad0 by (cbn; lia). cbn [mbind option_bind expect COLON N.eqb Pos.eqb].
  rewrite take_digits_pad0 by (cbn; lia). cbn [mbind option_bind].
  destruct (Z.eqb_spec us 0) as [->|Hne]; cbn [app].
  - by rewrite Htail.
  - cbn [expect DOT N.eqb Pos.eqb]. unfold parse_frac.
    rewrite take_digits_pad0 by (cbn; lia). reflexivity.
Qed.

(** The offset as [isoformat] prints it, after the sign. *)
Lemma parse_tz_format a :
  0 ≤ a < US_PER_DAY →
  let hh := a / (3600 * US_PER_SECOND) in
  let r := a mod (3600 * US_PER_SECOND) in
  let mm := r / (60 * US_PER_SECOND) in
  let r' := r mod (60 * US_PER_SECOND) in
  let ss := r' / US_PER_SECOND in
  let us := r' mod US_PER_SECOND in
  parse_tz (pad 2 hh ++ COLON :: pad 2 mm
            ++ (if (ss =? 0) && (us =? 0) then []
                else COLON :: pad 2 ss ++ (if us =? 0 then [] else DOT :: pad 6 us)))
  = Some (offset_read_back a).
Proof.
  unfold US_PER_DAY, US_PER_SECOND. intros Ha. cbn zeta. unfold parse_tz, US_PER_SECOND.
  set (hh := a / _). set (r := a mod _). set (mm := r / _). set (r' := r mod _).
  set (ss := r' / _). set (us := r' mod _).
  assert (Hhh : 0 ≤ hh < 24) by (subst hh; Z.div_mod_to_equations; lia).
  assert (Hmm : 0 ≤ mm < 60) by (subst mm r; Z.div_mod_to_equations; lia).
  assert (Hss : 0 ≤ ss < 60) by (subst ss r' r; Z.div_mod_to_equations; lia).
  assert (Hus : 0 ≤ us < 1000000) by (subst us r' r; Z.div_mod_to_equations; lia).
  assert (Hsum : a = (hh * 3600 + mm * 60 + ss) * 1000000 + us)
    by (subst hh mm ss us r' r; Z.div_mod_to_equations; lia).
  clearbody hh mm ss us. clear r r'.
  assert (Hback : ∀ se u, se = hh * 3600 + mm * 60 + ss → u = us →
            tz_offset se u = offset_read_back a).
  { intros se u -> ->. unfold tz_offset, offset_read_back, utc, US_PER_SECOND.
    destruct (Z.eqb_spec (hh * 3600 + mm * 60 + ss) 0), (Z.ltb_spec (Z.abs a) 1000000); lia. }
  rewrite take_digits_pad0 by (cbn; lia). cbn [mbind option_bind expect COLON N.eqb Pos.eqb].
  rewrite take_digits_pad0 by (cbn; lia). cbn [mbind option_bind].
  destruct (Z.eqb_spec ss 0) as [Hs0|Hs0]; destruct (Z.eqb_spec us 0) as [Hu0|Hu0];
    cbn [andb app expect COLON DOT N.eqb Pos.eqb mbind option_bind].
  - f_equal. apply Hback; lia.
  - rewrite take_digits_pad0 by (cbn; lia). cbn [mbind option_bind expect DOT N.eqb Pos.eqb].
    rewrite <- (app_nil_r (pad 6 us)). rewrite take_digits_pad0 by (cbn; lia).
    cbn [mbind option_bind]. f_equal. apply Hback; lia.
  - rewrite take_digits_pad0 by (cbn; lia).
    cbn [mbind option_bind]. f_equal. apply Hback; lia.
  - rewrite take_digits_pad0 by (cbn; lia). cbn [mbind option_bind expect DOT N.eqb Pos.eqb].
    rewrite <- (app_nil_r (pad 6 us)). rewrite take_digits_pad0 by (cbn; lia).
    cbn [mbind option_bind]. f_equal. apply Hback; lia.
Qed.

Lemma isoformat_unfold d :
  isoformat d =
  pad 4 (year d) ++ MINUS :: pad 2 (month d) ++ MINUS :: pad 2 (day d)
  ++ 84%N :: (pad 2 (hour d) ++ COLON :: pad 2 (minute d) ++ COLON :: pad 2 (second d)
  ++ (if microsecond d =? 0 then [] else DOT :: pad 6 (microsecond d))
  ++ format_offset (tzinfo d)).
Proof. reflexivity. Qed.

Lemma format_offset_unfold off :
  format_offset (Some off) =
  (if off <? 0 then MINUS else PLUS) ::
  (let a := Z.abs off in
   let hh := a / (3600 * US_PER_SECOND) in
   let r := a mod (3600 * US_PER_SECOND) in
   let mm := r / (60 * US_PER_SECOND) in
   let r' := r mod (60 * US_PER_SECOND) in
   let ss := r' / US_PER_SECOND in
   let us := r' mod US_PER_SECOND in
   pad 2 hh ++ COLON :: pad 2 mm
   ++ (if (ss =? 0) && (us =? 0) then []
       else COLON :: pad 2 ss ++ (if us =? 0 then [] else DOT :: pad 6 us))).
Proof. unfold format_offset. by destruct (off <? 0). Qed.

Lemma offset_read_back_opp off : offset_read_back (- off) = - offset_read_back off.
Proof.
  unfold offset_read_back, utc. rewrite Z.abs_opp. by destruct (_ <? _).
Qed.

Lemma offset_read_back_whole off :
  off = 0 ∨ US_PER_SECOND ≤ Z.abs off → offset_read_back off = off.
Proof.
  unfold offset_read_back, utc, US_PER_SECOND. destruct (Z.ltb_spec (Z.abs off) 1000000); lia.
Qed.

Lemma with_tz_same d off : tzinfo d = Some off → with_tz d (Some off) = d.
Proof. destruct d. cbn. by intros ->. Qed.

Lemma parse_iso_isoformat d :
  check_fields d = true →
  parse_iso (isoformat d) = Some (with_tz d (offset_read_back <$> tzinfo d)).
Proof.
  intros Hd. apply check_fields_iff in Hd as (Hy & Hmo & Hdd & Hh & Hmi & Hse & Hus & Htz).
  assert (Hdim : days_in_month (year d) (month d) ≤ 31).
  { unfold days_in_month. destruct (_ && _); [lia|].
    assert (Hc : month d = 1 ∨ month d = 2 ∨ month d = 3 ∨ month d = 4 ∨ month d = 5
                 ∨ month d = 6 ∨ month d = 7 ∨ month d = 8 ∨ month d = 9
                 ∨ month d = 10 ∨ month d = 11 ∨ month d = 12) by lia.
    repeat (destruct Hc as [->|Hc]); try rewrite Hc; cbn; lia. }
  rewrite isoformat_unfold. unfold parse_iso.
  rewrite take_digits_pad0 by (cbn; lia). cbn [mbind option_bind expect MINUS N.eqb Pos.eqb].
  rewrite take_digits_pad0 by (cbn; lia). cbn [mbind option_bind expect MINUS N.eqb Pos.eqb].
  rewrite take_digits_pad0 by (cbn; lia). cbn [mbind option_bind].
  destruct d as [y mo dd h mi se us tz].
  cbn [year month day hour minute second microsecond tzinfo] in *.
  destruct tz as [off|].
  - rewrite format_offset_unfold.
    rewrite parse_hms_format by (done || by destruct (off <? 0)).
    cbn [mbind option_bind]. cbn zeta.
    destruct (Z.ltb_spec off 0).
    + cbn [PLUS MINUS N.eqb Pos.eqb].
      rewrite (parse_tz_format (Z.abs off)) by lia. cbn [mbind option_bind].
      cbn [with_tz year month day hour minute second microsecond tzinfo fmap option_fmap
           option_map].
      do 2 f_equal. f_equal. rewrite <- offset_read_back_opp. f_equal. lia.
    + cbn [PLUS MINUS N.eqb Pos.eqb].
      rewrite (parse_tz_format (Z.abs off)) by lia. cbn [mbind option_bind].
      cbn [with_tz year month day hour minute second microsecond tzinfo fmap option_fmap
           option_map].
      do 2 f_equal. f_equal. f_equal. lia.
  - cbn [format_offset]. rewrite parse_hms_format by done. reflexivity.
Qed.

Lemma check_fields_read_back d :
  check_fields d = true → check_fields (with_tz d (offset_read_back <$> tzinfo d)) = true.
Proof.
  intros Hd. destruct (tzinfo d) as [off|] eqn:Htz; cbn [fmap option_fmap option_map].
  - apply check_fields_iff in Hd as (Hy & Hmo & Hdd & Hh & Hmi & Hse & Hus & Hoff).
    rewrite Htz in Hoff. apply check_fields_iff.
    cbn [with_tz year month day hour minute second microsecond tzinfo].
    unfold offset_read_back, utc, US_PER_DAY, US_PER_SECOND in *.
    destruct (Z.abs off <? 1000000); split_and!; lia.
  - rewrite <- Hd. destruct d. cbn in Htz. by subst.
Qed.

(** What [fromisoformat] makes of a text written by [isoformat]. *)
Lemma fromisoformat_isoformat_gen rest d :
  check_fields d = true →
  fromisoformat rest (isoformat d) = Ok (with_tz d (offset_read_back <$> tzinfo d)).
Proof.
  intros Hd. unfold fromisoformat. rewrite parse_iso_isoformat by done.
  by rewrite check_fields_read_back.
Qed.

Lemma fromisoformat_isoformat rest d :
  check_fields d = true →
  match tzinfo d with Some off => off = 0 ∨ US_PER_SECOND ≤ Z.abs off | None => True end →
  fromisoformat rest (isoformat d) = Ok d.
Proof.
  intros Hd Htz. rewrite fromisoformat_isoformat_gen by done. f_equal.
  destruct (tzinfo d) as [off|] eqn:Ho; cbn [fmap option_fmap option_map].
  - rewrite offset_read_back_whole by done. by apply with_tz_same.
  - destruct d. cbn in Ho. by subst.
Qed.

Lemma decimal_pad y : 1000 ≤ y → decimal y = pad 4 y.
Proof.
  intros Hy. unfold decimal.
  destruct (Z.ltb_spec y 10); [lia|]. destruct (Z.ltb_spec y 100); [lia|].
  destruct (Z.ltb_spec y 1000); [lia|]. reflexivity.
Qed.

Lemma length_pad w v : length (pad w v) = w.
Proof.
  revert v. induction w as [|w IH]; intros v; cbn [pad]; [done|].
  rewrite length_app, IH. cbn. lia.
Qed.

Lemma length_decimal y : y < 1000 → (length (decimal y) < 4)%nat.
Proof.
  intros Hy. unfold decimal.
  destruct (Z.ltb_spec y 10); [rewrite length_pad; lia|].
  destruct (Z.ltb_spec y 100); [rewrite length_pad; lia|].
  destruct (Z.ltb_spec y 1000); [rewrite length_pad; lia|lia].
Qed.

(** Where [strftime] writes the year with four digits. *)
Lemma strftime_pdf_text pads u :
  pads = true ∨ 1000 ≤ year u → strftime_pdf pads u = pdf_date_text u.
Proof.
  intros H. unfold strftime_pdf, pdf_date_text, strftime_Y.
  destruct pads; [done|]. destruct H as [?|H]; [done|]. by rewrite decimal_pad.
Qed.

Lemma strftime_pdf_short u : year u < 1000 → (length (strftime_pdf false u) < 23)%nat.
Proof.
  intros H. unfold strftime_pdf, strftime_Y. rewrite !length_app, !length_pad.
  pose proof (length_decimal _ H). cbn. lia.
Qed.

Ltac no_Z :=
  repeat match goal with
  | |- Forall _ (_ ++ _) => apply Forall_app; split
  | |- Forall _ (pad _ _) => apply pad_no_Z
  | |- Forall _ (if ?b then _ else _) => destruct b
  | |- Forall _ (_ :: _) => constructor; [cbv; discriminate|]
  | |- Forall _ [] => constructor
  end.

Lemma format_offset_no_Z tz : Forall (fun c => c ≠ 90%N) (format_offset tz).
Proof.
  destruct tz as [off|]; [|constructor]. rewrite format_offset_unfold. cbn zeta.
  constructor; [by destruct (off <? 0)|]. no_Z.
Qed.

Lemma isoformat_no_Z d : Forall (fun c => c ≠ 90%N) (isoformat d).
Proof.
  rewrite isoformat_unfold.
  no_Z; apply format_offset_no_Z.
Qed.

Lemma isoformat_with_tz d tz :
  isoformat (with_tz d tz) = isoformat (with_tz d None) ++ format_offset tz.
Proof.
  unfold isoformat.
  cbn [with_tz year month day hour minute second microsecond tzinfo format_offset].
  rewrite app_nil_r. repeat rewrite <- app_assoc. reflexivity.
Qed.

(** A text with a final Z reads as the same text with offset zero. *)
Lemma isoformat_utc_Z d :
  replace_Z (isoformat (with_tz d None) ++ [90%N]) = isoformat (with_tz d (Some utc)).
Proof.
  rewrite replace_Z_app, replace_Z_fixed by apply isoformat_no_Z.
  rewrite (isoformat_with_tz d (Some utc)). reflexivity.
Qed.

End IsoFacts.

(** ** PDF dates *)

Section PdfDateFacts.
Import DateTime.
#[local] Open Scope Z_scope.

Lemma pdf_dt_from_isoformat pads rest local d off :
  check_fields d = true → tzinfo d = Some off →
  off = 0 ∨ US_PER_SECOND ≤ Z.abs off →
  representable (wall_us d - off) →
  ∃ u, check_fields u = true ∧ tzinfo u = Some utc ∧ wall_us u = wall_us d - off ∧
       astimezone_utc local d = Ok u ∧
       pdf_dt_from_iso pads rest local (isoformat d) = Ok (strftime_pdf pads u).
Proof.
  intros Hd Htz Hoff Hr.
  destruct (astimezone_utc_spec local d off Hd) as (u & Hu & Hc & Hutc & Hw);
    [by rewrite Htz|done|].
  exists u. split_and!; try done.
  unfold pdf_dt_from_iso.
  rewrite replace_Z_fixed by apply isoformat_no_Z.
  rewrite fromisoformat_isoformat by (done || by rewrite Htz). cbn [bind_res].
  rewrite Hu. reflexivity.
Qed.

Lemma pdf_dt_from_accepted pads rest local s d off :
  fromisoformat rest (replace_Z s) = Ok d → check_fields d = true →
  tzinfo d = Some off → representable (wall_us d - off) →
  ∃ u, check_fields u = true ∧ tzinfo u = Some utc ∧ wall_us u = wall_us d - off ∧
       pdf_dt_from_iso pads rest local s = Ok (strftime_pdf pads u).
Proof.
  intros Hs Hd Htz Hr.
  destruct (astimezone_utc_spec local d off Hd) as (u & Hu & Hc & Hutc & Hw);
    [by rewrite Htz|done|].
  exists u. split; [done|]. split; [done|]. split; [done|].
  unfold pdf_dt_from_iso. rewrite Hs. cbn [bind_res]. rewrite Hu. reflexivity.
Qed.

Lemma pdf_dt_from_isoformat_utc pads rest local d :
  check_fields d = true → tzinfo d = Some utc →
  pdf_dt_from_iso pads rest local (isoformat d) = Ok (strftime_pdf pads d).
Proof.
  intros Hd Htz. unfold pdf_dt_from_iso.
  rewrite replace_Z_fixed by apply isoformat_no_Z.
  rewrite fromisoformat_isoformat by (done || (rewrite Htz; by left)). cbn [bind_res].
  rewrite astimezone_utc_fixed by done. reflexivity.
Qed.

End PdfDateFacts.

Section InfoFacts.

Lemma info_lookup (l : list (list N * list N)) (k v : list N) :
  NoDup l.*1 → (k, v) ∈ l → (list_to_map l : gmap (list N) (list N)) !! k = Some v.
Proof. apply elem_of_list_to_map_1. Qed.

Lemma pdf_fields_inv E fs meta src conv info x :
  Pdf.pdf_fields E fs meta src conv = Ok (info, x) →
  ∃ published creation moddate,
    Pdf.published_of fs meta src = Ok published ∧
    DateTime.pdf_dt_from_iso (pads_year E) (fromisoformat_rest E) (local_utcoffset E)
      published = Ok creation ∧
    DateTime.pdf_dt_from_iso (pads_year E) (fromisoformat_rest E) (local_utcoffset E)
      conv = Ok moddate ∧
    info !! str_of "/Title" = Some (Extract.or_else (title meta) (Paths.stem src)) ∧
    info !! str_of "/Author" = Some (Extract.or_else (author meta) (str_of "Unknown")) ∧
    info !! str_of "/Subject" = Some (Pdf.subject_of meta published) ∧
    info !! str_of "/CreationDate" = Some creation ∧
    info !! str_of "/ModDate" = Some moddate ∧
    dc_title x = Extract.or_else (title meta) (Paths.stem src) ∧
    dc_description x = Pdf.subject_of meta published ∧
    dc_date x = [published].
Proof.
  unfold Pdf.pdf_fields. intros H.
  destruct (Pdf.published_of fs meta src) as [published|] eqn:Hp; [|done].
  cbn [bind_res] in H.
  destruct (DateTime.pdf_dt_from_iso _ _ _ published) as [creation|] eqn:Hc; [|done].
  cbn [bind_res] in H.
  destruct (DateTime.pdf_dt_from_iso _ _ _ conv) as [moddate|] eqn:Hm; [|done].
  cbn [bind_res] in H.
  match type of H with Ok (?i, ?y) = _ =>
    assert (Hi : info = i) by congruence; assert (Hx : x = y) by congruence
  end.
  clear H. subst info x.
  exists published, creation, moddate.
  split; [done|]. split; [done|]. split; [done|].
  assert (Hnd : ∀ (a b c d e f g h i j k l m n o : list N),
    NoDup ([ (str_of "/Title", a); (str_of "/Author", b); (str_of "/Subject", c);
             (str_of "/Keywords", d); (str_of "/Creator", e); (str_of "/Producer", f);
             (str_of "/CreationDate", g); (str_of "/ModDate", h); (str_of "/SourceURL", i);
             (str_of "/SourceFile", j); (str_of "/Publisher", k); (str_of "/Language", l);
             (str_of "/ArchiveCaptureDate", m); (str_of "/ContentSHA256", n);
             (str_of "/SourceMIME", o) ].*1)).
  { intros. cbn [fmap list_fmap fst]. refine (bool_decide_unpack _ _). vm_compute. exact I. }
  split_and!; try reflexivity;
    (apply info_lookup; [apply Hnd|]; cbn [str_of]; repeat first [apply list_elem_of_here | apply list_elem_of_further]).
Qed.

End InfoFacts.

(** C3, as amended.  For every text that [fromisoformat] reads as a
    reading with an offset (every Z reads as [+00:00]) and whose UTC
    reading lies in the years 1 to 9999, [pdf_dt_from_iso] returns the
    [strftime] text of the reading moved to UTC.  That text is
    [D:YYYYMMDDHHMMSS+00'00'] from the year 1000 on, and from the year 1
    where the platform fills the year up to four digits; where it does
    not, as with glibc, the text of an earlier year is shorter.  The
    texts [isoformat] writes for an aware value are read back as that
    value when the offset is zero or of one second at least, and with
    the offset UTC when it is below one second; the text with a final Z
    for offset zero is read back as well.  In the info dictionary
    [/CreationDate] is this conversion of the published date and
    [/ModDate] that of the conversion time. *)
Theorem pdf_date_of_iso_timestamp :
  (∀ (pads : bool) (rest : list N → res DateTime.datetime)
     (local : DateTime.datetime → Z) s d off,
     DateTime.fromisoformat rest (DateTime.replace_Z s) = Ok d →
     DateTime.check_fields d = true →
     DateTime.tzinfo d = Some off →
     representable (DateTime.wall_us d - off) →
     ∃ u, DateTime.check_fields u = true ∧
          DateTime.tzinfo u = Some 0%Z ∧
          DateTime.wall_us u = (DateTime.wall_us d - off)%Z ∧
          DateTime.pdf_dt_from_iso pads rest local s = Ok (DateTime.strftime_pdf pads u) ∧
          (pads = true ∨ (1000 ≤ DateTime.year u)%Z →
           DateTime.strftime_pdf pads u = pdf_date_text u) ∧
          (pads = false → (DateTime.year u < 1000)%Z →
           (length (DateTime.strftime_pdf pads u) < length (pdf_date_text u))%nat) ∧
          ∀ u', DateTime.check_fields u' = true → DateTime.tzinfo u' = Some 0%Z →
                DateTime.wall_us u' = (DateTime.wall_us d - off)%Z → u' = u) ∧
  (∀ (pads : bool) (rest : list N → res DateTime.datetime)
     (local : DateTime.datetime → Z) d off,
     DateTime.check_fields d = true →
     DateTime.tzinfo d = Some off →
     DateTime.fromisoformat rest (DateTime.replace_Z (DateTime.isoformat d))
       = Ok (DateTime.with_tz d (Some (offset_read_back off))) ∧
     (off = 0%Z ∨ (DateTime.US_PER_SECOND ≤ Z.abs off)%Z →
      DateTime.fromisoformat rest (DateTime.replace_Z (DateTime.isoformat d)) = Ok d) ∧
     (off = 0%Z →
      DateTime.fromisoformat rest
        (DateTime.replace_Z (DateTime.isoformat (DateTime.with_tz d None) ++ str_of "Z"))
      = Ok d ∧
      DateTime.pdf_dt_from_iso pads rest local (DateTime.isoformat d)
      = Ok (DateTime.strftime_pdf pads d))) ∧
  (∀ E fs meta src conv info x,
     Pdf.pdf_fields E fs meta src conv = Ok (info, x) →
     ∃ published,
       Pdf.published_of fs meta src = Ok published ∧
       Ok <$> info !! str_of "/CreationDate"
         = Some (DateTime.pdf_dt_from_iso (pads_year E) (fromisoformat_rest E)
                   (local_utcoffset E) published) ∧
       Ok <$> info !! str_of "/ModDate"
         = Some (DateTime.pdf_dt_from_iso (pads_year E) (fromisoformat_rest E)
                   (local_utcoffset E) conv)).
Proof.
  split_and!.
  - intros pads rest local s d off Hs Hd Htz Hr.
    destruct (pdf_dt_from_accepted pads rest local s d off Hs Hd Htz Hr)
      as (u & Hu & Hutc & Hw & Hp).
    exists u. split; [done|]. split; [done|]. split; [done|]. split; [done|].
    split; [apply strftime_pdf_text|]. split.
    + intros -> Hy. pose proof (strftime_pdf_short u Hy) as Hl.
      replace (length (pdf_date_text u)) with 23%nat; [exact Hl|].
      unfold pdf_date_text. rewrite !length_app, !length_pad. reflexivity.
    + intros u' Hu' Hutc' Hw'. apply wall_us_inj; [done|done|by rewrite Hutc, Hutc'|lia].
  - intros pads rest local d off Hd Htz.
    assert (Hback : DateTime.fromisoformat rest (DateTime.replace_Z (DateTime.isoformat d))
                    = Ok (DateTime.with_tz d (Some (offset_read_back off)))).
    { rewrite replace_Z_fixed by apply isoformat_no_Z.
      rewrite fromisoformat_isoformat_gen by done. by rewrite Htz. }
    split; [exact Hback|]. split.
    + intros Hoff. rewrite Hback, offset_read_back_whole by done.
      f_equal. by apply with_tz_same.
    + intros ->. split; [|by apply pdf_dt_from_isoformat_utc].
      change (str_of "Z") with [90%N]. rewrite isoformat_utc_Z.
      rewrite (with_tz_same d DateTime.utc Htz).
      apply fromisoformat_isoformat; [done|]. rewrite Htz. by left.
  - intros E fs meta src conv info x H.
    destruct (pdf_fields_inv _ _ _ _ _ _ _ H)
      as (published & creation & moddate & Hp & Hc & Hm & _ & _ & _ & Hic & Him & _).
    exists published. rewrite Hic, Him, Hc, Hm. done.
Qed.

Lemma pdf_date_of_iso_timestamp_witness :
  DateTime.isoformat Demo.d0 = str_of "2024-03-01T01:30:00+05:30" ∧
  DateTime.pdf_dt_from_iso false (fun _ => Raise ValueError) (fun _ => 0%Z)
    (str_of "2024-03-01T01:30:00+05:30")
    = Ok (str_of "D:20240229200000+00'00'") ∧
  ∃ u, DateTime.wall_us u = (DateTime.wall_us Demo.d0 - 19800000000)%Z ∧
       DateTime.pdf_dt_from_iso false (fun _ => Raise ValueError) (fun _ => 0%Z)
         (str_of "2024-03-01T01:30:00+05:30")
       = Ok (DateTime.strftime_pdf false u).
Proof.
  split; [vm_compute; reflexivity|]. split; [vm_compute; reflexivity|].
  destruct (proj1 pdf_date_of_iso_timestamp false (fun _ => Raise ValueError)
              (fun _ => 0%Z) (str_of "2024-03-01T01:30:00+05:30") Demo.d0 19800000000%Z)
    as (u & _ & _ & Hw & Hp & _).
  - vm_compute; reflexivity.
  - vm_compute; reflexivity.
  - reflexivity.
  - unfold representable. split; vm_compute; [discriminate|reflexivity].
  - exists u. split; assumption.
Defined.

(** C3 as stated fails on two well-formed timestamps.  The UTC reading
    of 0001-01-01T00:00:00+01:00 is before year 1 and the conversion
    raises [OverflowError]; and where [strftime] does not fill up the
    year, 0999-01-01T00:00:00+00:00 becomes [D:9990101000000+00'00'],
    with a year of three digits. *)
Lemma pdf_date_not_for_every_timestamp :
  ((∃ d, DateTime.fromisoformat (fun _ => Raise ValueError)
           (str_of "0001-01-01T00:00:00+01:00") = Ok d
         ∧ DateTime.tzinfo d = Some 3600000000%Z) ∧
   DateTime.pdf_dt_from_iso false (fun _ => Raise ValueError) (fun _ => 0%Z)
     (str_of "0001-01-01T00:00:00+01:00")
   = Raise OverflowError) ∧
  DateTime.pdf_dt_from_iso false (fun _ => Raise ValueError) (fun _ => 0%Z)
    (str_of "0999-01-01T00:00:00+00:00")
  = Ok (str_of "D:9990101000000+00'00'").
Proof. split; [split; [eexists; split|]|]; vm_compute; reflexivity. Qed.

(** ** The date normaliser *)



(** ** Fallbacks of the stamping *)

Section FallbackFacts.
Import DateTime.
#[local] Open Scope Z_scope.

Lemma add_us_Ok_inv d delta u :
  add_us d delta = Ok u → representable (wall_us d + delta).
Proof.
  unfold add_us, representable.
  destruct ((0 <? _) && _) eqn:Hr; [|done]. intros _.
  apply andb_true_iff in Hr as [H1 H2]. apply Z.ltb_lt in H1. apply Z.leb_le in H2.
  unfold US_PER_DAY, US_PER_SECOND, MAXORDINAL in *. Z.div_mod_to_equations. lia.
Qed.

Lemma fromtimestamp_utc_spec ts :
  representable (wall_us EPOCH + ts) →
  ∃ dt, fromtimestamp_utc ts = Ok dt ∧ check_fields dt = true ∧
        tzinfo dt = Some utc ∧ wall_us dt = wall_us EPOCH + ts.
Proof.
  intros Hr. destruct (add_us_spec EPOCH ts Hr) as (dt & Hdt & Hw & Htz & Hc).
  exists dt. split; [done|]. split; [|done].
  specialize (Hc (Some utc)).
  assert (Heq : with_tz dt (Some utc) = dt) by (destruct dt; cbn in Htz; by subst).
  rewrite Heq in Hc. apply Hc. unfold utc, US_PER_DAY, US_PER_SECOND. lia.
Qed.

Lemma filetime_fallback_spec fs src ts :
  Store.st_ctime fs src = Ok ts → representable (wall_us EPOCH + ts) →
  ∃ dt, Extract.filetime_fallback fs src = Ok (isoformat dt) ∧
        check_fields dt = true ∧ tzinfo dt = Some utc ∧
        wall_us dt = wall_us EPOCH + ts.
Proof.
  intros Hts Hr. destruct (fromtimestamp_utc_spec ts Hr) as (dt & Hdt & Hc & Htz & Hw).
  exists dt. unfold Extract.filetime_fallback. rewrite Hts. cbn [bind_res].
  rewrite Hdt. done.
Qed.

Lemma filetime_fallback_inv fs src iso :
  Extract.filetime_fallback fs src = Ok iso →
  ∃ ts dt, Store.st_ctime fs src = Ok ts ∧ fromtimestamp_utc ts = Ok dt ∧
           iso = isoformat dt ∧
           check_fields dt = true ∧ tzinfo dt = Some utc ∧
           wall_us dt = wall_us EPOCH + ts ∧ representable (wall_us EPOCH + ts).
Proof.
  unfold Extract.filetime_fallback.
  destruct (Store.st_ctime fs src) as [ts|] eqn:Hts; [|done]. cbn [bind_res].
  destruct (fromtimestamp_utc ts) as [dt|] eqn:Hdt; [|done]. cbn [bind_res].
  intros [= <-].
  destruct (fromtimestamp_utc_spec ts) as (dt' & Hdt' & Hc & Htz & Hw).
  { eapply add_us_Ok_inv. exact Hdt. }
  exists ts, dt. rewrite Hdt in Hdt'. injection Hdt' as ->.
  split_and!; try done. eapply add_us_Ok_inv. exact Hdt.
Qed.

End FallbackFacts.

Lemma subject_of_take meta published :
  Pdf.subject_of meta published =
  take 2000 (Html.join (str_of " | ")
    (Pdf.some_if_set (subject meta)
     ++ ((fun u => str_of "Source URL: " ++ u) <$> Pdf.some_if_set (source_url meta))
     ++ ((fun d => str_of "Published: " ++ d) <$> Pdf.some_if_set (Some published)))).
Proof.
  unfold Pdf.subject_of. by destruct (_ ++ _).
Qed.



(** ** Output paths *)

Section PathFacts.
Import Paths.

Lemma split_last_dot_app s a b : split_last_dot s = Some (a, b) → s = a ++ b.
Proof.
  revert a b. induction s as [|c s IH]; intros a b; [done|]. cbn [split_last_dot].
  destruct (split_last_dot s) as [[a' b']|].
  - intros [= <- <-]. cbn. f_equal. by apply IH.
  - destruct (c =? DOT); [|done]. by intros [= <- <-].
Qed.

Lemma stem_suffix nm : stem_of nm ++ suffix_of nm = nm.
Proof.
  unfold stem_of, suffix_of.
  destruct (split_last_dot nm) as [[a b]|] eqn:Hs; [|by rewrite app_nil_r].
  apply split_last_dot_app in Hs.
  destruct a as [|x a]; [by rewrite app_nil_r|].
  destruct b as [|y [|z b]]; by rewrite ?app_nil_r.
Qed.

Lemma take_stem nm :
  suffix_of nm ≠ [] → take (length nm - length (suffix_of nm)) nm = stem_of nm.
Proof.
  intros _. rewrite <- (stem_suffix nm) at 1 3.
  rewrite length_app.
  replace (length (stem_of nm) + length (suffix_of nm) - length (suffix_of nm))%nat
    with (length (stem_of nm)) by lia.
  by rewrite take_app_length.
Qed.

Lemma with_suffix_stem p suf :
  name p ≠ [] →
  with_suffix p suf = Ok (parent p ++ [stem p ++ suf]).
Proof.
  intros Hn. unfold with_suffix, stem.
  destruct (name p) as [|c nm] eqn:Hnm; [done|].
  destruct (suffix_of (c :: nm)) as [|d sf] eqn:Hsf.
  - do 3 f_equal. rewrite <- (stem_suffix (c :: nm)) at 1. by rewrite Hsf, app_nil_r.
  - do 3 f_equal. rewrite <- Hsf. f_equal. apply take_stem. by rewrite Hsf.
Qed.

Lemma is_prefix_app root p : is_prefix root (root ++ p) = true.
Proof.
  induction root as [|r root IH]; [done|]. cbn. by rewrite bool_decide_eq_true_2.
Qed.

Lemma is_prefix_drop root p :
  is_prefix root p = true → root ++ drop (length root) p = p.
Proof.
  revert p. induction root as [|r root IH]; intros p; [done|].
  destruct p as [|c p]; [done|]. cbn. intros H.
  apply andb_true_iff in H as [H1 H2]. apply bool_decide_eq_true in H1 as ->.
  f_equal. by apply IH.
Qed.

Lemma name_app root p : p ≠ [] → name (root ++ p) = name p.
Proof.
  intros Hp. unfold name. rewrite last_app.
  destruct (last p) eqn:Hl; [done|]. by apply last_None in Hl.
Qed.

Lemma parent_app root p : p ≠ [] → parent (root ++ p) = root ++ parent p.
Proof. intros Hp. unfold parent. by apply removelast_app. Qed.

Lemma parent_snoc p c : parent (p ++ [c]) = p.
Proof. unfold parent. apply removelast_last. Qed.

Lemma name_snoc p c : name (p ++ [c]) = c.
Proof. unfold name. by rewrite last_snoc. Qed.

Lemma stem_app root p : p ≠ [] → stem (root ++ p) = stem p.
Proof. intros Hp. unfold stem. by rewrite name_app. Qed.

Lemma stem_snoc p c : stem (p ++ [c]) = stem_of c.
Proof. unfold stem. by rewrite name_snoc. Qed.

Lemma suffix_nonempty_name p : suffix p ≠ [] → name p ≠ [].
Proof.
  unfold suffix. intros H Hn. by rewrite Hn in H.
Qed.

End PathFacts.

Section CandidateFacts.
Import Driver.

Lemma is_candidate_inv a fs src :
  is_candidate a fs src = true →
  Paths.is_prefix (source_root a) src = true ∧
  (length (source_root a) < length src)%nat ∧
  (recurse_subdirs a = false → length src = S (length (source_root a))) ∧
  Store.is_file fs src = true ∧
  (Html.lower (Paths.suffix src) = str_of ".mht"
   ∨ Html.lower (Paths.suffix src) = str_of ".mhtml").
Proof.
  unfold is_candidate. rewrite !andb_true_iff, orb_true_iff, !bool_decide_eq_true.
  intros [[[Hp Hl] Hf] Hs]. split; [done|].
  destruct (recurse_subdirs a).
  - apply Nat.ltb_lt in Hl. done.
  - apply Nat.eqb_eq in Hl. split; [lia|]. done.
Qed.

Lemma candidate_suffix src :
  (Html.lower (Paths.suffix src) = str_of ".mht"
   ∨ Html.lower (Paths.suffix src) = str_of ".mhtml") →
  Paths.suffix src ≠ [].
Proof. intros [H|H] Hn; by rewrite Hn in H. Qed.

End CandidateFacts.

Import Driver.

(** C7.  For a file of the batch the output is: with [--output-root],
    that root joined with the path of the source relative to the source
    root, the extension replaced by [.pdf]; without it and without
    [--recurse-subdirs], [source_root/_pdf_archive/<stem>.pdf]; without
    it and with [--recurse-subdirs], [_pdf_archive/<stem>.pdf] beside the
    source file. *)
Theorem output_path_derivation (a : args) (fs : gmap (list (list N)) Store.node)
    (src : list (list N)) :
  is_candidate a fs src = true →
  ∃ t,
    derive_out a src = Ok t ∧
    source_root a ++ rel t = src ∧
    Paths.stem src ++ Paths.suffix src = Paths.name src ∧
    out_pdf t =
      match output_root a with
      | Some root => root ++ Paths.parent (rel t) ++ [Paths.stem src ++ str_of ".pdf"]
      | None =>
          if recurse_subdirs a
          then Paths.parent src ++ [str_of "_pdf_archive"; Paths.stem src ++ str_of ".pdf"]
          else source_root a ++ [str_of "_pdf_archive"; Paths.stem src ++ str_of ".pdf"]
      end ∧
    (recurse_subdirs a = false → Paths.parent src = source_root a).
Proof.
  intros Hc. apply is_candidate_inv in Hc as (Hp & Hlen & Hflat & _ & Hsuf).
  apply candidate_suffix in Hsuf. pose proof (suffix_nonempty_name _ Hsuf) as Hname.
  pose proof (is_prefix_drop _ _ Hp) as Hsplit.
  set (r := drop (length (source_root a)) src) in *.
  assert (Hr : r ≠ []).
  { intros Hr. rewrite Hr, app_nil_r in Hsplit. rewrite Hsplit in Hlen. lia. }
  assert (Hparent : Paths.parent src = source_root a ++ Paths.parent r)
    by (rewrite <- Hsplit at 1; by apply parent_app).
  assert (Hnm : Paths.name r = Paths.name src)
    by (rewrite <- Hsplit; symmetry; by apply name_app).
  assert (Hstem : Paths.stem r = Paths.stem src)
    by (unfold Paths.stem; by rewrite Hnm).
  assert (Hflat' : recurse_subdirs a = false → Paths.parent src = source_root a).
  { intros Hf. specialize (Hflat Hf). rewrite Hparent.
    assert (length r = 1%nat) by (rewrite <- Hsplit, length_app in Hflat; lia).
    destruct r as [|c [|c' r']]; simplify_eq/=. by rewrite app_nil_r. }
  unfold derive_out, Paths.relative_to. rewrite Hp. cbn [bind_res]. fold r.
  destruct (output_root a) as [root|] eqn:Hroot.
  - rewrite with_suffix_stem by (by rewrite name_app, Hnm).
    cbn [bind_res]. rewrite parent_app by done. rewrite <- app_assoc, is_prefix_app. cbn [bind_res].
    eexists. split; [reflexivity|]. cbn [rel out_pdf].
    split; [exact Hsplit|]. split; [apply (stem_suffix (Paths.name src))|]. split; [|first [exact Hflat' | done]].
    rewrite ?stem_app, ?stem_snoc, ?Hstem by done. by rewrite <- ?app_assoc.
  - destruct (recurse_subdirs a) eqn:Hrec.
    + rewrite Hparent, <- app_assoc, is_prefix_app. cbn [bind_res].
      eexists. split; [reflexivity|]. cbn [rel out_pdf].
      split; [exact Hsplit|]. split; [apply (stem_suffix (Paths.name src))|]. split; [|first [exact Hflat' | done]].
      rewrite ?stem_app, ?stem_snoc, ?Hstem by done. by rewrite <- ?app_assoc.
    + unfold effective_output_root. rewrite Hroot.
      rewrite with_suffix_stem by (by rewrite name_snoc).
      cbn [bind_res]. rewrite parent_snoc. rewrite is_prefix_app. cbn [bind_res].
      eexists. split; [reflexivity|]. cbn [rel out_pdf].
      split; [exact Hsplit|]. split; [apply (stem_suffix (Paths.name src))|]. split; [|first [exact Hflat' | done]].
      rewrite ?stem_app, ?stem_snoc, ?Hstem by done. by rewrite <- ?app_assoc.
Qed.

Lemma output_path_derivation_witness :
  ∃ t, derive_out Demo.flat_args Demo.src_file = Ok t ∧
       out_pdf t = [str_of "archive"; str_of "_pdf_archive"; str_of "a.pdf"].
Proof.
  destruct (output_path_derivation Demo.flat_args Demo.store Demo.src_file)
    as (t & Ht & _ & _ & Ho & _); [vm_compute; reflexivity|].
  exists t. split; [exact Ht|]. rewrite Ho. vm_compute. reflexivity.
Defined.

(** ** Skipping *)

Section StoreFacts.

Lemma well_formed_spec (fs : gmap (list (list N)) Store.node) p n k :
  well_formed fs = true → fs !! p = Some n → (0 < k < length p)%nat →
  Store.is_dir fs (take k p) = true.
Proof.
  unfold well_formed. intros Hwf Hp Hk.
  rewrite forallb_forall in Hwf.
  assert (Hin : In (p, n) (map_to_list fs))
    by (apply list_elem_of_In; by apply elem_of_map_to_list).
  specialize (Hwf (p, n) Hin). cbn [fst] in Hwf.
  rewrite forallb_forall in Hwf. apply Hwf. apply in_seq. lia.
Qed.

Lemma mkdir_from_existing (fs : gmap (list (list N)) Store.node) above below :
  (∀ k, (0 < k ≤ length below)%nat → fs !! (above ++ take k below) = Some Store.Dir) →
  Store.mkdir_from fs above below = (fs, Ok tt).
Proof.
  revert above. induction below as [|c below IH]; intros above H; [done|].
  cbn [Store.mkdir_from].
  pose proof (H 1%nat ltac:(cbn; lia)) as H1. rewrite (firstn_O below : take 0 below = []) in H1 || change (take 1 (c :: below)) with [c] in H1. rewrite H1.
  apply IH. intros k Hk. rewrite <- app_assoc. apply (H (S k)). cbn. lia.
Qed.

Lemma is_dir_lookup (fs : gmap (list (list N)) Store.node) p :
  p ≠ [] → Store.is_dir fs p = true → fs !! p = Some Store.Dir.
Proof.
  unfold Store.is_dir. destruct p; [done|]. intros _.
  by destruct (fs !! _) as [[]|].
Qed.

Lemma take_removelast {A} (l : list A) k :
  (k ≤ length l - 1)%nat → take k (removelast l) = take k l.
Proof.
  destruct l as [|x l _] using rev_ind; [done|].
  rewrite removelast_last, length_app. cbn [length]. intros Hk.
  rewrite take_app_le; [done|lia].
Qed.

Lemma length_removelast {A} (l : list A) : length (removelast l) = (length l - 1)%nat.
Proof.
  destruct l as [|x l _] using rev_ind; [done|].
  rewrite removelast_last, length_app. cbn [length]. lia.
Qed.

Lemma mkdir_parent_of_existing (fs : gmap (list (list N)) Store.node) p n :
  well_formed fs = true → fs !! p = Some n →
  Store.mkdir fs (Paths.parent p) = (fs, Ok tt).
Proof.
  intros Hwf Hp. unfold Store.mkdir, Paths.parent.
  apply mkdir_from_existing. intros k Hk. cbn [app].
  rewrite length_removelast in Hk.
  rewrite take_removelast by lia.
  apply is_dir_lookup.
  - destruct p; [cbn in Hk; lia|]. destruct k; [lia|done].
  - eapply well_formed_spec; eauto. lia.
Qed.

End StoreFacts.

Import Driver.

(** C5, as amended.  With [--skip-existing], a source whose output PDF
    exists and is not empty is skipped: the store (the PDF and its
    sidecar with it) and both counters stay as they are, the browser is
    not launched, and the only event is the SKIP line. *)
Theorem skip_existing_leaves_state (E : externals) (a : args)
    (norm_root exe : list (list N)) (converted_iso : list N)
    (src : list (list N)) (s : state) (t : target) (content : list N) (ctime : Z) :
  skip_existing a = true →
  well_formed (fs s) = true →
  derive_out a src = Ok t →
  fs s !! out_pdf t = Some (Store.File content ctime) →
  content ≠ [] →
  process_file E a norm_root exe converted_iso src s
  = ({| fs := fs s; ok := ok s; fail := fail s;
        events := events s ++ [Log (MSkip (log_rel t))] |}, Ok tt).
Proof.
  intros Hskip Hwf Ht Hout Hne.
  unfold process_file, bind, lift_res, lift_fs, get_fs. rewrite Ht.
  rewrite (mkdir_parent_of_existing _ _ _ Hwf Hout). cbn [fst snd].
  assert (Hs : should_skip a (fs (set_fs s (fs s))) (out_pdf t) = true).
  { unfold should_skip, Store.exists_, Store.is_file, Store.st_size. cbn [set_fs fs].
    rewrite Hskip, Hout, orb_true_r. cbn [andb].
    destruct content; [done|]. done. }
  rewrite Hs. unfold emit, set_fs. cbn [fs ok fail events]. reflexivity.
Qed.

Lemma skip_existing_leaves_state_witness :
  process_file Demo.E1 Demo.skip_args [] Demo.chrome_exe [] Demo.src_file Demo.s_converted
  = ({| fs := Demo.store_converted; ok := 0; fail := 0;
        events := [Log (MSkip [str_of "a.pdf"])] |}, Ok tt).
Proof.
  refine (skip_existing_leaves_state Demo.E1 Demo.skip_args [] Demo.chrome_exe []
            Demo.src_file Demo.s_converted
            {| rel := [str_of "a.mht"]; out_pdf := Demo.out_file; log_rel := [str_of "a.pdf"] |}
            (str_of "%PDF-1.7 stamped") 1700000000000000%Z _ _ _ _ _).
  - reflexivity.
  - vm_compute; reflexivity.
  - vm_compute; reflexivity.
  - vm_compute; reflexivity.
  - discriminate.
Defined.

(** C5 as stated fails on an existing output PDF of no bytes: with
    [--skip-existing] it is rendered again, counted as a success and
    replaced. *)
Lemma empty_pdf_is_not_skipped :
  skip_existing Demo.skip_args = true ∧
  Store.exists_ Demo.store_empty_pdf Demo.out_file = true ∧
  let r := main Demo.E1 Demo.skip_args Demo.store_empty_pdf in
  Launch Demo.chrome_exe
         [str_of "archive"; str_of "tmp"; str_of "normalized-mhtml"; str_of "a.mhtml"]
         Demo.out_file ∈ events r.1 ∧
  ok r.1 = 1%nat ∧
  fs r.1 !! Demo.out_file ≠ Demo.store_empty_pdf !! Demo.out_file.
Proof.
  split; [reflexivity|]. split; [vm_compute; reflexivity|].
  cbn zeta. split_and!.
  - apply list_elem_of_In. vm_compute. tauto.
  - vm_compute. reflexivity.
  - vm_compute. discriminate.
Qed.

(** ** The loop and the exit status *)

Section CountFacts.
#[local] Open Scope nat_scope.

Lemma count_app f l l' : count f (l ++ l') = count f l + count f l'.
Proof. unfold count. by rewrite List.filter_app, length_app. Qed.

Lemma count_one f e : count f [e] = if f e then 1 else 0.
Proof. unfold count. cbn. by destruct (f e). Qed.

Lemma count_no_verdict new :
  count is_verdict new = 0 →
  count is_ok_line new = 0 ∧ count is_fail_line new = 0.
Proof.
  unfold count. induction new as [|e new IH]; [done|]. cbn [List.filter].
  unfold is_verdict at 1.
  destruct (is_ok_line e), (is_fail_line e); cbn [orb length]; try done.
  destruct (is_skip_line e); cbn [length]; done.
Qed.

End CountFacts.

Section TurnFacts.
Import Driver.
#[local] Open Scope nat_scope.

Lemma counted_quiet_0 s s' new :
  ok s' = ok s → fail s' = fail s → events s' = events s ++ new →
  count is_verdict new = 0 → counted s s' new 0.
Proof.
  intros Hok Hfail Hev Hc. destruct (count_no_verdict new Hc) as [H1 H2].
  unfold counted. rewrite H1, H2. split_and!; try done; lia.
Qed.

Lemma quiet_ret {A} (a : A) : quiet (ret a).
Proof.
  intros s s' r [= <- <-]. split_and!; try done. exists []. by rewrite app_nil_r.
Qed.

Lemma quiet_lift_res {A} (x : res A) : quiet (lift_res x).
Proof.
  intros s s' r [= <- <-]. split_and!; try done. exists []. by rewrite app_nil_r.
Qed.

Lemma quiet_lift_fs f : quiet (lift_fs f).
Proof.
  intros s s' r [= <- <-]. split_and!; try done. exists []. by rewrite app_nil_r.
Qed.

Lemma quiet_get_fs : quiet get_fs.
Proof.
  intros s s' r [= <- <-]. split_and!; try done. exists []. by rewrite app_nil_r.
Qed.

Lemma quiet_emit e : is_verdict e = false → quiet (emit e).
Proof.
  intros He s s' r [= <- <-]. split_and!; try done. exists [e].
  split; [done|]. by rewrite count_one, He.
Qed.

Lemma quiet_bind {A B} (m : M A) (k : A → M B) :
  quiet m → (∀ a, quiet (k a)) → quiet (bind m k).
Proof.
  intros Hm Hk s s' r. unfold bind.
  destruct (m s) as [s1 [a|e]] eqn:Hms.
  - intros Hks. destruct (Hm _ _ _ Hms) as (Ho1 & Hf1 & new1 & He1 & Hc1).
    destruct (Hk a _ _ _ Hks) as (Ho2 & Hf2 & new2 & He2 & Hc2).
    split; [congruence|]. split; [congruence|].
    exists (new1 ++ new2). rewrite He2, He1, <- app_assoc. split; [done|].
    rewrite count_app. lia.
  - intros [= <- <-]. exact (Hm _ _ _ Hms).
Qed.

Lemma judging_bind {A B} (m : M A) (k : A → M B) :
  quiet m → (∀ a, judging (k a)) → judging (bind m k).
Proof.
  intros Hm Hk s s' r. unfold bind.
  destruct (m s) as [s1 [a|e]] eqn:Hms.
  - intros Hks. destruct (Hm _ _ _ Hms) as (Ho1 & Hf1 & new1 & He1 & Hc1).
    destruct (Hk a _ _ _ Hks) as (new2 & He2 & Hc2 & Ho2 & Hf2).
    destruct (count_no_verdict new1 Hc1) as [H1 H2].
    exists (new1 ++ new2). unfold counted. rewrite !count_app, H1, H2, Hc1.
    rewrite He2, He1, <- app_assoc, Ho2, Hf2, Ho1, Hf1. done.
  - intros [= <- <-]. destruct (Hm _ _ _ Hms) as (Ho1 & Hf1 & new1 & He1 & Hc1).
    exists new1. by apply counted_quiet_0.
Qed.

Lemma judging_ok l : judging (bind (emit (Log (MOk l))) (fun _ => incr_ok)).
Proof.
  intros s s' r [= <- <-]. exists [Log (MOk l)]. unfold counted. cbn. split_and!; try done; lia.
Qed.

Lemma judging_fail_render l err :
  judging (bind (emit (Log (MFailRender l err))) (fun _ => incr_fail)).
Proof.
  intros s s' r [= <- <-]. exists [Log (MFailRender l err)]. unfold counted. cbn.
  split_and!; try done; lia.
Qed.

Lemma quiet_render_pdf E exe input out : quiet (render_pdf E exe input out).
Proof.
  unfold render_pdf.
  apply quiet_bind; [by apply quiet_emit|]. intros _.
  apply quiet_bind; [apply quiet_get_fs|]. intros fs0.
  apply quiet_bind; [apply quiet_lift_res|]. intros proc.
  apply quiet_bind; [|intros; apply quiet_ret].
  destruct (proc_printed proc); [|apply quiet_ret].
  intros s s' r [= <- <-]. split_and!; try done. exists []. by rewrite app_nil_r.
Qed.

Lemma quiet_apply_fallbacks meta src : quiet (apply_fallbacks meta src).
Proof.
  unfold apply_fallbacks. destruct (is_set _); [apply quiet_ret|].
  apply quiet_bind; [apply quiet_get_fs|]. intros fs0.
  apply quiet_bind; [apply quiet_lift_res|]. intros. apply quiet_ret.
Qed.

Lemma judging_convert E exe conv src t tn meta :
  judging (convert E exe conv src t tn meta).
Proof.
  unfold convert. apply judging_bind.
  { destruct (is_mht src); [|apply quiet_ret].
    apply quiet_bind; [apply quiet_lift_res|]. intros p.
    apply quiet_bind; [apply quiet_lift_fs|]. intros _.
    apply quiet_bind; [apply quiet_lift_fs|]. intros _. apply quiet_ret. }
  intros render_input. apply judging_bind; [apply quiet_render_pdf|]. intros proc.
  apply judging_bind; [apply quiet_get_fs|]. intros fs1.
  destruct (render_failed fs1 (out_pdf t)); [apply judging_fail_render|].
  apply judging_bind; [apply quiet_apply_fallbacks|]. intros meta'.
  apply judging_bind; [apply quiet_lift_fs|]. intros _.
  apply judging_bind; [apply quiet_lift_res|]. intros sidecar.
  apply judging_bind; [apply quiet_lift_fs|]. intros _.
  apply judging_ok.
Qed.

Lemma quiet_cleanup tmp : quiet (cleanup tmp).
Proof.
  unfold cleanup. destruct tmp as [tn|]; [|apply quiet_ret].
  apply quiet_bind; [apply quiet_get_fs|]. intros fs0.
  destruct (Store.exists_ fs0 tn); [apply quiet_lift_fs|apply quiet_ret].
Qed.

Lemma cleanup_raise tmp s s' e :
  cleanup tmp s = (s', Raise e) →
  ∃ tn, tmp = Some tn ∧ fs s !! tn = Some Store.Dir ∧ fs s' = fs s ∧ e = OSError.
Proof.
  unfold cleanup. destruct tmp as [tn|]; [|done].
  unfold bind, get_fs. destruct (Store.exists_ (fs s) tn); [|done].
  unfold lift_fs, Store.unlink.
  destruct (fs s !! tn) as [[c t|]|] eqn:Hn; cbn [fst snd]; [done| |done].
  intros [= <- <-]. by exists tn.
Qed.

(** [try ... except ... finally] with the handler of the loop. *)
Lemma try_handler_cleanup body t tmp s :
  try_except_finally body (handler t) (cleanup tmp) s =
  match body s with
  | (s1, Ok _) => cleanup tmp s1
  | (s1, Raise e) =>
      cleanup tmp {| fs := fs s1; ok := ok s1; fail := S (fail s1);
                     events := events s1 ++ [Log (MFailError (rel t) e)] |}
  end.
Proof.
  unfold try_except_finally. destruct (body s) as [s1 [[]|e]]; reflexivity.
Qed.

Lemma counted_after_cleanup s s1 s' new n tmp r :
  counted s s1 new n → cleanup tmp s1 = (s', r) → counted s s' new n.
Proof.
  intros (He & Hc & Ho & Hf) Hcl.
  destruct (quiet_cleanup tmp _ _ _ Hcl) as (Ho' & Hf' & new' & He' & Hc').
  unfold cleanup in Hcl.
  assert (events s' = events s1).
  { destruct tmp as [tn|]; [|by injection Hcl as <- _].
    unfold bind, get_fs in Hcl. destruct (Store.exists_ (fs s1) tn).
    - unfold lift_fs in Hcl. by injection Hcl as <- _.
    - by injection Hcl as <- _. }
  unfold counted. split_and!; congruence.
Qed.

End TurnFacts.

Section LoopFacts.
Import Driver.
#[local] Open Scope nat_scope.

Variable E : externals.
Variable a : args.
Variables norm_root exe : list (list N).
Variable converted_iso : list N.

Lemma process_file_tried src s t fs1 :
  derive_out a src = Ok t →
  Store.mkdir (fs s) (Paths.parent (out_pdf t)) = (fs1, Ok tt) →
  should_skip a fs1 (out_pdf t) = false →
  process_file E a norm_root exe converted_iso src s =
  try_except_finally
    (bind (lift_res (Extract.extract_from_mht E fs1 src))
          (convert E exe converted_iso src t
             (Paths.with_suffix (norm_root ++ rel t) (str_of ".mhtml"))))
    (handler t)
    (cleanup match Extract.extract_from_mht E fs1 src,
                   Paths.with_suffix (norm_root ++ rel t) (str_of ".mhtml") with
             | Ok _, Ok tn => if is_mht src then Some tn else None
             | _, _ => None
             end)
    (set_fs s fs1).
Proof.
  intros Ht Hmk Hskip.
  unfold process_file. unfold bind at 1, lift_res at 1. rewrite Ht.
  unfold bind at 1, lift_fs at 1. rewrite Hmk. cbn [fst snd].
  unfold bind at 1, get_fs at 1. cbn [set_fs fs]. rewrite Hskip. reflexivity.
Qed.

Lemma process_file_escape src s s' e :
  process_file E a norm_root exe converted_iso src s = (s', Raise e) →
  derive_out a src = Raise e
  ∨ (∃ t, derive_out a src = Ok t
          ∧ (Store.mkdir (fs s) (Paths.parent (out_pdf t))).2 = Raise e)
  ∨ (∃ t tn, derive_out a src = Ok t ∧ is_mht src = true
             ∧ Paths.with_suffix (norm_root ++ rel t) (str_of ".mhtml") = Ok tn
             ∧ fs s' !! tn = Some Store.Dir ∧ e = OSError).
Proof.
  destruct (derive_out a src) as [t|e0] eqn:Ht.
  2: { unfold process_file, bind, lift_res. rewrite Ht. intros [= _ <-]. by left. }
  destruct (Store.mkdir (fs s) (Paths.parent (out_pdf t))) as [fs1 [[]|e1]] eqn:Hmk.
  2: { unfold process_file, bind, lift_res, lift_fs. rewrite Ht, Hmk. cbn [fst snd].
       intros [= _ <-]. right. left. exists t. by rewrite Hmk. }
  destruct (should_skip a fs1 (out_pdf t)) eqn:Hskip.
  { unfold process_file, bind, lift_res, lift_fs, get_fs. rewrite Ht, Hmk. cbn [fst snd set_fs fs].
    rewrite Hskip. unfold emit. intros [=]. }
  rewrite (process_file_tried src s t fs1 Ht Hmk Hskip).
  rewrite try_handler_cleanup.
  destruct (bind _ _ (set_fs s fs1)) as [s1 [[]|e1]]; intros Hc;
    apply cleanup_raise in Hc as (tn & Htmp & Hdir & Hfs & ->); right; right;
    exists t, tn;
    destruct (Extract.extract_from_mht E fs1 src); [|done| |done];
    destruct (Paths.with_suffix _ _) as [tn'|]; [|done| |done];
    destruct (is_mht src); [|done| |done];
    injection Htmp as ->; rewrite Hfs; done.
Qed.

Lemma process_file_counted src s s' :
  process_file E a norm_root exe converted_iso src s = (s', Ok tt) →
  ∃ new, counted s s' new 1.
Proof.
  destruct (derive_out a src) as [t|e0] eqn:Ht.
  2: { unfold process_file, bind, lift_res. rewrite Ht. intros [=]. }
  destruct (Store.mkdir (fs s) (Paths.parent (out_pdf t))) as [fs1 [[]|e1]] eqn:Hmk.
  2: { unfold process_file, bind, lift_res, lift_fs. rewrite Ht, Hmk. cbn [fst snd].
       intros [=]. }
  destruct (should_skip a fs1 (out_pdf t)) eqn:Hskip.
  { unfold process_file, bind, lift_res, lift_fs, get_fs. rewrite Ht, Hmk. cbn [fst snd set_fs fs].
    rewrite Hskip. unfold emit. cbn [fs ok fail events]. intros [= <-].
    exists [Log (MSkip (log_rel t))]. unfold counted. cbn. split_and!; try done; lia. }
  rewrite (process_file_tried src s t fs1 Ht Hmk Hskip).
  rewrite try_handler_cleanup.
  destruct (bind _ _ (set_fs s fs1)) as [s1 [[]|e1]] eqn:Hbody; intros Hc.
  - assert (Hj : judging (bind (lift_res (Extract.extract_from_mht E fs1 src))
            (convert E exe converted_iso src t
               (Paths.with_suffix (norm_root ++ rel t) (str_of ".mhtml")))))
      by (apply judging_bind; [apply quiet_lift_res|intros; apply judging_convert]).
    destruct (Hj _ _ _ Hbody) as (new & Hnew).
    exists new. eapply counted_after_cleanup; [|exact Hc]. exact Hnew.
  - assert (Hj : judging (bind (lift_res (Extract.extract_from_mht E fs1 src))
            (convert E exe converted_iso src t
               (Paths.with_suffix (norm_root ++ rel t) (str_of ".mhtml")))))
      by (apply judging_bind; [apply quiet_lift_res|intros; apply judging_convert]).
    destruct (Hj _ _ _ Hbody) as (new & He & Hcn & Ho & Hf).
    exists (new ++ [Log (MFailError (rel t) e1)]).
    eapply counted_after_cleanup; [|exact Hc].
    unfold counted. cbn [fs ok fail events set_fs] in *.
    rewrite !count_app, !count_one, Hcn, He, <- app_assoc. cbn.
    split_and!; try done; lia.
Qed.

Lemma run_files_counted files s s' :
  run_files E a norm_root exe converted_iso files s = (s', Ok tt) →
  ∃ new, counted s s' new (length files).
Proof.
  revert s. induction files as [|src files IH]; intros s.
  - intros [= <-]. exists []. unfold counted. rewrite app_nil_r. cbn. split_and!; try done; lia.
  - cbn [run_files]. unfold bind at 1.
    destruct (process_file E a norm_root exe converted_iso src s) as [s1 [[]|e]] eqn:Hp; [|done].
    intros Hr. destruct (process_file_counted _ _ _ Hp) as (new1 & He1 & Hc1 & Ho1 & Hf1).
    destruct (IH _ Hr) as (new2 & He2 & Hc2 & Ho2 & Hf2).
    exists (new1 ++ new2). unfold counted. rewrite !count_app.
    rewrite He2, He1, <- app_assoc, Ho2, Ho1, Hf2, Hf1, Hc1, Hc2. cbn [length].
    split_and!; try done; lia.
Qed.

End LoopFacts.

Section MainFacts.
Import Driver.
#[local] Open Scope nat_scope.

Lemma bind_Ok_inv {A B} (m : M A) (k : A → M B) s s' c :
  bind m k s = (s', Ok c) → ∃ s1 x, m s = (s1, Ok x) ∧ k x s1 = (s', Ok c).
Proof.
  unfold bind. destruct (m s) as [s1 [x|e]]; [|done]. intros H. by exists s1, x.
Qed.

Lemma lift_fs_Ok_inv f s s1 x :
  lift_fs f s = (s1, Ok x) → ok s1 = ok s ∧ fail s1 = fail s ∧ events s1 = events s.
Proof. unfold lift_fs. by intros [= <- _]. Qed.

Lemma main_counted E a fs0 s' code :
  main E a fs0 = (s', Ok code) →
  ∃ exe new,
    events s' = [Log (MBrowser exe); Log (MSource (source_root a));
                 Log (MTarget (count is_verdict new))]
                ++ new ++ [Log (MDone (ok s') (fail s'))] ∧
    ok s' = count is_ok_line new ∧
    fail s' = count is_fail_line new ∧
    code = (match fail s' with O => 0 | _ => 2 end)%Z.
Proof.
  unfold main, main_body. intros H.
  apply bind_Ok_inv in H as (s1 & [] & H1 & H). apply lift_fs_Ok_inv in H1 as (Ho1 & Hf1 & He1).
  apply bind_Ok_inv in H as (s2 & [] & H2 & H). apply lift_fs_Ok_inv in H2 as (Ho2 & Hf2 & He2).
  apply bind_Ok_inv in H as (s3 & [] & H3 & H). apply lift_fs_Ok_inv in H3 as (Ho3 & Hf3 & He3).
  apply bind_Ok_inv in H as (s4 & fs4 & H4 & H). injection H4 as <- <-.
  apply bind_Ok_inv in H as (s5 & exe & H5 & H). unfold lift_res in H5. injection H5 as <- _.
  apply bind_Ok_inv in H as (s6 & [] & H6 & H). injection H6 as <-.
  apply bind_Ok_inv in H as (s7 & [] & H7 & H). injection H7 as <-.
  apply bind_Ok_inv in H as (s8 & [] & H8 & H). injection H8 as <-.
  apply bind_Ok_inv in H as (s9 & conv & H9 & H). unfold lift_res in H9. injection H9 as <- _.
  apply bind_Ok_inv in H as (s10 & [] & H10 & H).
  apply run_files_counted in H10 as (new & He & Hc & Ho & Hf).
  cbn [fs ok fail events] in He, Ho, Hf.
  injection H as <- <-. cbn [fs ok fail events].
  rewrite He3, He2, He1 in He. cbn [events app] in He.
  rewrite Ho3, Ho2, Ho1 in Ho. rewrite Hf3, Hf2, Hf1 in Hf. cbn [ok fail] in Ho, Hf.
  exists exe, new.
  rewrite He, Hc. cbn [app]. split; [reflexivity|].
  split; [lia|]. split; [lia|]. unfold exit_status. reflexivity.
Qed.

End MainFacts.

Import Driver.

(** C6, as amended.  An exception raised inside the [try] block
    (extraction, normalised copy, rendering, stamping, sidecar) is
    caught: the failure count goes up by one and a FAIL line is logged
    before the cleanup.  What escapes a turn of the loop comes from the
    path derivation, from making the output directory or from removing
    the temporary copy.  A run of the loop that ends gives each file one
    verdict and counts it, and a run of [main] that ends exits with 0
    when no file failed and with 2 otherwise. *)
Theorem batch_failure_handling (E : externals) (a : args) :
  (∀ norm_root exe conv src s t fs1 s1 e,
     derive_out a src = Ok t →
     Store.mkdir (fs s) (Paths.parent (out_pdf t)) = (fs1, Ok tt) →
     should_skip a fs1 (out_pdf t) = false →
     bind (lift_res (Extract.extract_from_mht E fs1 src))
          (convert E exe conv src t
             (Paths.with_suffix (norm_root ++ rel t) (str_of ".mhtml")))
          (set_fs s fs1) = (s1, Raise e) →
     ∃ tmp,
       process_file E a norm_root exe conv src s =
       cleanup tmp {| fs := fs s1; ok := ok s1; fail := S (fail s1);
                      events := events s1 ++ [Log (MFailError (rel t) e)] |}) ∧
  (∀ norm_root exe conv src s s' e,
     process_file E a norm_root exe conv src s = (s', Raise e) →
     derive_out a src = Raise e
     ∨ (∃ t, derive_out a src = Ok t
             ∧ (Store.mkdir (fs s) (Paths.parent (out_pdf t))).2 = Raise e)
     ∨ (∃ t tn, derive_out a src = Ok t ∧ is_mht src = true
                ∧ Paths.with_suffix (norm_root ++ rel t) (str_of ".mhtml") = Ok tn
                ∧ fs s' !! tn = Some Store.Dir ∧ e = OSError)) ∧
  (∀ norm_root exe conv files s s',
     run_files E a norm_root exe conv files s = (s', Ok tt) →
     ∃ new,
       events s' = events s ++ new ∧
       count is_verdict new = length files ∧
       ok s' = (ok s + count is_ok_line new)%nat ∧
       fail s' = (fail s + count is_fail_line new)%nat) ∧
  (∀ fs0 s' code,
     main E a fs0 = (s', Ok code) →
     ∃ exe new,
       events s' = [Log (MBrowser exe); Log (MSource (source_root a));
                    Log (MTarget (count is_verdict new))]
                   ++ new ++ [Log (MDone (ok s') (fail s'))] ∧
       ok s' = count is_ok_line new ∧
       fail s' = count is_fail_line new ∧
       (count is_fail_line new = 0%nat → code = 0%Z) ∧
       (count is_fail_line new ≠ 0%nat → code = 2%Z)).
Proof.
  split_and!.
  - intros norm_root exe conv src s t fs1 s1 e Ht Hmk Hskip Hbody.
    eexists. rewrite (process_file_tried E a norm_root exe conv src s t fs1 Ht Hmk Hskip).
    rewrite try_handler_cleanup, Hbody. reflexivity.
  - intros. by eapply process_file_escape.
  - intros norm_root exe conv files s s' H.
    destruct (run_files_counted _ _ _ _ _ _ _ _ H) as (new & Hnew).
    exists new. exact Hnew.
  - intros fs0 s' code H.
    destruct (main_counted _ _ _ _ _ H) as (exe & new & He & Ho & Hf & Hc).
    exists exe, new. split; [done|]. split; [done|]. split; [done|].
    rewrite <- Hf. rewrite Hc. split; intros Hz; [by rewrite Hz|].
    by destruct (fail s').
Qed.

Lemma batch_failure_handling_witness :
  ∃ s' exe new,
    main Demo.E9 Demo.flat_args Demo.store_ready = (s', Ok 2%Z) ∧
    events s' = [Log (MBrowser exe); Log (MSource Demo.src_root);
                 Log (MTarget (count is_verdict new))]
                ++ new ++ [Log (MDone (ok s') (fail s'))] ∧
    fail s' = count is_fail_line new.
Proof.
  destruct (main Demo.E9 Demo.flat_args Demo.store_ready) as [s' r] eqn:H.
  assert (Hr : r = Ok 2%Z).
  { change r with (s', r).2. rewrite <- H. vm_compute. reflexivity. }
  subst r.
  destruct (batch_failure_handling Demo.E9 Demo.flat_args) as (_ & _ & _ & Hmain).
  destruct (Hmain _ _ _ H) as (exe & new & He & _ & Hf & _).
  exists s', exe, new. split; [reflexivity|]. split; [exact He|exact Hf].
Defined.

(** C6 as stated fails when [_pdf_archive] beside a source file is a
    regular file: making the output directory raises before the [try]
    block, the run ends with that exception, and neither file of the
    batch gets a verdict. *)
Lemma blocked_output_directory_ends_run :
  let r := main Demo.E1 Demo.nested_args Demo.store_blocked in
  enumerate Demo.nested_args (fs r.1)
    = [ [str_of "archive"; str_of "a"; str_of "one.mht"];
        [str_of "archive"; str_of "b"; str_of "two.mht"] ] ∧
  r.2 = Raise OSError ∧
  fail r.1 = 0%nat ∧
  count is_verdict (events r.1) = 0%nat.
Proof. cbn zeta. split_and!; vm_compute; reflexivity. Qed.
